(** * Lecture model of fin-model-course: resources, lectures, notes

    A shallow embedding of [lectures/model.py].  Python objects become
    records, [Optional] fields become [option], exceptions become an
    explicit [result], and the loops that build lists become folds over an
    accumulator, in the order the source runs them. *)

From Stdlib Require Import Ascii String.
From stdpp Require Import base option list strings gmap pretty.

(** ** Python-level conventions *)

(** The exception the renderers raise.  ([AttributeError] only occurs
    caught, inside [__eq__], and is modelled there by [option].) *)
Inductive exn := ValueError.

Inductive result (A : Type) :=
| Ok (a : A)
| Raise (e : exn).
Arguments Ok {A} a.
Arguments Raise {A} e.

Global Instance result_bind : MBind result := λ A B k r,
  match r with
  | Ok a => k a
  | Raise e => Raise e
  end.

Global Instance result_ret : MRet result := λ A a, Ok a.

(** [for x in xs: out.append(f(x))], stopping at the first exception, is
    stdpp's [mapM f xs] run in this monad. *)

(** The line feed, and [sep.join(parts)]. *)
Definition nl : string := String "010"%char EmptyString.

Definition join (sep : string) (parts : list string) : string :=
  String.concat sep parts.

(** [datetime.datetime], as far as the model needs it. *)
Record datetime := mk_datetime {
  dt_year : Z; dt_month : Z; dt_day : Z;
  dt_hour : Z; dt_minute : Z; dt_second : Z
}.

Global Instance datetime_eq_dec : EqDecision datetime.
Proof. solve_decision. Defined.

(** Values an attribute of an arbitrary object may hold, and [==] on them. *)
Inductive pyval :=
| PyNone
| PyStr (s : string)
| PyInt (z : Z)
| PyDatetime (d : datetime).

Global Instance pyval_eq_dec : EqDecision pyval.
Proof. solve_decision. Defined.

Definition py_eq (a b : pyval) : bool := bool_decide (a = b).

Definition of_optional (o : option string) : pyval :=
  match o with
  | Some s => PyStr s
  | None => PyNone
  end.

(** [seq[i]] for an integer [i]: negative indices count from the end, and
    [None] stands for [IndexError]. *)
Definition py_index {A} (l : list A) (i : Z) : option A :=
  if (0 <=? i)%Z then l !! Z.to_nat i
  else if (- Z.of_nat (length l) <=? i)%Z then l !! Z.to_nat (Z.of_nat (length l) + i)
  else None.

(** [for x in obj] on a class that has [__getitem__] and no [__iter__]:
    Python asks for [obj[0]], [obj[1]], ... and stops at the first
    [IndexError].  One unit of [fuel] per request; [None] when it runs
    out before the loop ends. *)
Fixpoint iterate {A} (fuel : nat) (getitem : Z → option A) (k : Z) : option (list A) :=
  match fuel with
  | 0 => None
  | S fuel' =>
      match getitem k with
      | None => Some []
      | Some x => (x ::.) <$> iterate fuel' getitem (k + 1)%Z
      end
  end.

(** ** LectureResource *)

Module LectureResource.

Record t := mk {
  name : string;
  static_url : option string;
  external_url : option string;
  updated : option datetime;
  index : option Z;
  datetime_fmt : string
}.

(** The dataclass default of [datetime_fmt]. *)
Definition default_fmt : string := "%B%e, %l:%M %p".

(** What [other] in [__eq__] can be: another resource, or any object,
    given by its attribute dictionary. *)
Inductive pyobj :=
| ObjResource (r : t)
| ObjAttrs (attrs : gmap string pyval).

(** [other.<attr>] for the data attributes; [None] stands for
    [AttributeError]. *)
Definition getattr (o : pyobj) (attr : string) : option pyval :=
  match o with
  | ObjResource r =>
      if String.eqb attr "name" then Some (PyStr (name r))
      else if String.eqb attr "static_url" then Some (of_optional (static_url r))
      else if String.eqb attr "external_url" then Some (of_optional (external_url r))
      else if String.eqb attr "updated" then
        Some (match updated r with Some d => PyDatetime d | None => PyNone end)
      else if String.eqb attr "datetime_fmt" then Some (PyStr (datetime_fmt r))
      else if String.eqb attr "index" then
        Some (match index r with Some z => PyInt z | None => PyNone end)
      else None
  | ObjAttrs attrs => attrs !! attr
  end.

(** [all([...])] over a list of booleans. *)
Definition all (bs : list bool) : bool := forallb id bs.

(** [__eq__]: the three attribute reads happen while the list is built,
    before [all] runs; a missing one lands in [except AttributeError]. *)
Definition eq (self : t) (other : pyobj) : bool :=
  match getattr other "name" with
  | None => false
  | Some n =>
    match getattr other "static_url" with
    | None => false
    | Some s =>
      match getattr other "external_url" with
      | None => false
      | Some e =>
          all [ py_eq (PyStr (name self)) n;
                py_eq (of_optional (static_url self)) s;
                py_eq (of_optional (external_url self)) e ]
      end
    end
  end.

(** [url] property. *)
Definition url (self : t) : option string :=
  match static_url self with
  | Some s => Some ("/_static/" +:+ s)
  | None =>
    match external_url self with
    | Some e => Some e
    | None => None
    end
  end.

(** An [Optional[str]] spliced into an f-string. *)
Definition fmt_optional (o : option string) : string :=
  match o with
  | Some s => s
  | None => "None"
  end.

Section Rendering.

(** [datetime.strftime], a library function taken as given. *)
Variable strftime : datetime → string → string.

(** [display_name] property. *)
Definition display_name (self : t) : string :=
  let name0 := "" in
  let name1 :=
    match index self with
    | Some i => name0 +:+ pretty i +:+ " "
    | None => name0
    end in
  let name2 := name1 +:+ name self in
  match updated self with
  | Some u => name2 +:+ " (updated " +:+ strftime u (datetime_fmt self) +:+ ")"
  | None => name2
  end.

Definition _to_download_rst (self : t) : string :=
  nl +:+ "- :download:`" +:+ display_name self +:+ " <"
     +:+ fmt_optional (url self) +:+ ">`" +:+ nl +:+ "        ".

Definition _to_external_link_rst (self : t) : string :=
  nl +:+ "- `" +:+ display_name self +:+ " <"
     +:+ fmt_optional (url self) +:+ ">`_" +:+ nl +:+ "        ".

Definition to_rst (self : t) : result string :=
  match static_url self with
  | Some _ => Ok (_to_download_rst self)
  | None =>
    match external_url self with
    | Some _ => Ok (_to_external_link_rst self)
    | None => Raise ValueError
    end
  end.

End Rendering.

(** [x in xs] for a list of resources: [any(x is e or x == e for e in xs)].
    Identity implies [==] here, so only [==] is left. *)
Definition contains (x : t) (xs : list t) : bool :=
  existsb (fun e => eq x (ObjResource e)) xs.

(** [ContentMetadata] is declared outside these files.  The record holds
    the attributes [from_metadata] reads, typed as the resource fields they
    end up in; [generated] is [isinstance(md, GeneratedContentMetadata)]. *)
Record ContentMetadata := mk_metadata {
  md_name : string;
  output_extension : string;
  content_type_code : string;
  content_index : option Z;
  last_modified : option datetime;
  generated : bool
}.

(** An [Optional[int]] spliced into an f-string. *)
Definition fmt_index (o : option Z) : string :=
  match o with
  | Some z => pretty z
  | None => "None"
  end.

(** [from_metadata]; [None] stands for [NotImplementedError]. *)
Definition from_metadata (md : ContentMetadata) (url : option string) : option t :=
  let url' :=
    match url with
    | Some u => Some u
    | None =>
        let generated_content_subfolder := output_extension md +:+ "s" in
        if generated md
        then Some ("generated/" +:+ generated_content_subfolder +:+ "/"
                   +:+ content_type_code md +:+ fmt_index (content_index md)
                   +:+ " " +:+ md_name md +:+ "." +:+ output_extension md)
        else None
    end in
  match url' with
  | Some u =>
      Some {| name := md_name md;
              static_url := Some u;
              external_url := None;
              updated := last_modified md;
              index := content_index md;
              datetime_fmt := default_fmt |}
  | None => None
  end.

End LectureResource.

(** ** Note items *)

(** The classes [to_models] is instantiated with.  A class outside
    pyexlatex's two is given by its name and by the calls it takes. *)
Inductive model_class :=
| PlSection
| PlUnorderedList
| PlClass (cls_name : string) (plain titled : bool).

(** Whether [cls(content)] and [cls(content, title=...)] are calls the
    class takes.  [pl.Section] has [title] as a required argument;
    [pl.UnorderedList] has no [title] argument. *)
Definition accepts_plain (cls : model_class) : bool :=
  match cls with
  | PlSection => false
  | PlUnorderedList => true
  | PlClass _ plain _ => plain
  end.

Definition accepts_title (cls : model_class) : bool :=
  match cls with
  | PlSection => true
  | PlUnorderedList => false
  | PlClass _ _ titled => titled
  end.

(** What building a document can raise, and the outcome of doing so. *)
Inductive model_exn := TypeError | AttributeError.

Inductive outcome (A : Type) :=
| Made (a : A)
| Fails (e : model_exn).
Arguments Made {A} a.
Arguments Fails {A} e.

Global Instance outcome_bind : MBind outcome := λ A B k r,
  match r with
  | Made a => k a
  | Fails e => Fails e
  end.

Global Instance outcome_ret : MRet outcome := λ A a, Made a.

(** What [to_pyexlatex()] hands back. *)
Inductive latex_obj :=
| PlEquation (str_eq : string)
| Hyperlink (href : string) (display_text : option string)
| PlObject (tag : string).

(** An object of a class outside this module, seen through the two
    attributes the renderers probe with [hasattr]: [None] when the
    attribute is absent, otherwise what calling it gives. *)
Record object := mk_object {
  obj_to_rst : option (result string);
  obj_to_pyexlatex : option latex_obj
}.

(** What a note sequence may hold.  [INotes] is a nested [LectureNotes];
    [ISeq] is a list or a tuple; [IEquation] and [ILink] are the two
    [Serializable] classes of the module. *)
Local Unset Elimination Schemes.
Inductive item :=
| IStr (s : string)
| ISeq (xs : list item)
| INotes (its : list item) (ttl : string)
| IEquation (latex : string)
| ILink (href : string) (display_text : option string)
| IObject (o : object).
Local Set Elimination Schemes.

(** Induction over items that reaches into the nested lists. *)
Section ItemInd.
Variable P : item → Prop.
Hypothesis HStr : ∀ s, P (IStr s).
Hypothesis HSeq : ∀ xs, Forall P xs → P (ISeq xs).
Hypothesis HNotes : ∀ its ttl, Forall P its → P (INotes its ttl).
Hypothesis HEquation : ∀ latex, P (IEquation latex).
Hypothesis HLink : ∀ href dt, P (ILink href dt).
Hypothesis HObject : ∀ o, P (IObject o).

Fixpoint item_nested_ind (i : item) : P i :=
  let all_items := fix go (l : list item) : Forall P l :=
    match l with
    | [] => Forall_nil_2 P
    | x :: l' => Forall_cons_2 P x l' (item_nested_ind x) (go l')
    end in
  match i with
  | IStr s => HStr s
  | ISeq xs => HSeq xs (all_items xs)
  | INotes its ttl => HNotes its ttl (all_items its)
  | IEquation latex => HEquation latex
  | ILink href dt => HLink href dt
  | IObject o => HObject o
  end.
End ItemInd.

(** [Equation.to_rst] and [Equation.to_pyexlatex]. *)
Module Equation.
Definition to_rst (latex : string) : string := ":math:`" +:+ latex +:+ "`".
Definition to_pyexlatex (latex : string) : latex_obj := PlEquation latex.
End Equation.

(** [Link.to_rst] and [Link.to_pyexlatex]. *)
Module Link.

(** [s.replace('_', '\_')]. *)
Fixpoint escape_underscores (s : string) : string :=
  match s with
  | EmptyString => EmptyString
  | String c s' =>
      if Ascii.eqb c "_"%char
      then String "\"%char (String "_"%char (escape_underscores s'))
      else String c (escape_underscores s')
  end.

(** [if self.display_text:] holds for a text that is set and not empty. *)
Definition to_rst (href : string) (display_text : option string) : string :=
  match display_text with
  | Some (String c s) =>
      let text := escape_underscores (String c s) in
      "`" +:+ text +:+ " <" +:+ href +:+ ">`_"
  | _ => "`<" +:+ href +:+ ">`_"
  end.

Definition to_pyexlatex (href : string) (display_text : option string) : latex_obj :=
  Hyperlink href display_text.

End Link.

(** ** Rendering notes to reStructuredText *)

(** The last line of [LectureNotes.to_rst]. *)
Definition bullet (line : string) : string := "- " +:+ line.

Definition rst_of_lines (lines : list string) : string :=
  nl +:+ join nl (map bullet lines) +:+ nl.

(** [to_rst_bullet_content], with the body of [LectureNotes.to_rst]
    unfolded at a nested [LectureNotes], whose [to_rst] attribute is that
    method. *)
Fixpoint to_rst_bullet_content (i : item) : result (list string) :=
  match i with
  | IStr s => Ok [s]
  | ISeq xs =>
      subs ← mapM to_rst_bullet_content xs;
      Ok [join " " (concat subs)]
  | INotes its _ =>
      lines ← mapM to_rst_bullet_content its;
      Ok [rst_of_lines (concat lines)]
  | IEquation latex => Ok [Equation.to_rst latex]
  | ILink href dt => Ok [Link.to_rst href dt]
  | IObject o =>
      match obj_to_rst o with
      | Some call => s ← call; Ok [s]
      | None => Raise ValueError
      end
  end.

(** What [to_pyexlatex_content] hands back: a string, a list of contents,
    the outcome of a [to_pyexlatex()] call, or the item as it came. *)
Local Unset Elimination Schemes.
Inductive pyx :=
| PxStr (s : string)
| PxList (l : list pyx)
| PxLatex (o : latex_obj)
| PxItem (i : item).
Local Set Elimination Schemes.

(** The function [to_pyexlatex_content].  A nested [LectureNotes] has no
    [to_pyexlatex] and falls through to the last line. *)
Fixpoint to_pyexlatex_content (i : item) : pyx :=
  match i with
  | IStr s => PxStr s
  | ISeq xs => PxList (map to_pyexlatex_content xs)
  | IEquation latex => PxLatex (Equation.to_pyexlatex latex)
  | ILink href dt => PxLatex (Link.to_pyexlatex href dt)
  | IObject o =>
      match obj_to_pyexlatex o with
      | Some out => PxLatex out
      | None => PxItem i
      end
  | INotes _ _ => PxItem i
  end.

(** ** Folding notes into document models *)

(** The objects [to_models] builds and passes on: an item kept as it is,
    the outcome of a [to_pyexlatex()] call, an instance [cls(content)] or
    [cls(content, title=...)], or a bare Python list. *)
Local Unset Elimination Schemes.
Inductive doc :=
| DItem (i : item)
| DLatex (o : latex_obj)
| DModel (cls : model_class) (content : list doc) (ttl : option string)
| DList (content : list doc).
Local Set Elimination Schemes.

(** The three-way test of the second loop of [to_models]. *)
Inductive str_kind :=
| KStr
| KSerializable (out : latex_obj)
| KOther.

(** [isinstance(item, str)], then [hasattr(item, 'to_pyexlatex')].  Model
    instances and [to_pyexlatex()] results come from pyexlatex and carry no
    [to_pyexlatex]; neither do sequences and [LectureNotes]. *)
Definition str_kind_of (d : doc) : str_kind :=
  match d with
  | DItem (IStr _) => KStr
  | DItem (IEquation latex) => KSerializable (Equation.to_pyexlatex latex)
  | DItem (ILink href dt) => KSerializable (Link.to_pyexlatex href dt)
  | DItem (IObject o) =>
      match obj_to_pyexlatex o with
      | Some out => KSerializable out
      | None => KOther
      end
  | DItem (ISeq _) | DItem (INotes _ _) => KOther
  | DLatex _ | DModel _ _ _ | DList _ => KOther
  end.

(** The loop state of [to_models]: [final_items] and [current_str_items]. *)
Record collector := mk_collector {
  final_items : list doc;
  current_str_items : list doc
}.

(** The calls [cls(content)] and [cls(content, title=ttl)]: an instance,
    or [TypeError] when the class does not take the call. *)
Definition call_plain (cls : model_class) (content : list doc) : outcome doc :=
  if accepts_plain cls then Made (DModel cls content None) else Fails TypeError.

Definition call_titled (cls : model_class) (content : list doc) (ttl : string)
    : outcome doc :=
  if accepts_title cls then Made (DModel cls content (Some ttl)) else Fails TypeError.

(** A loop whose body may raise: the first exception ends it. *)
Definition fold_outcome {A B} (f : A → B → outcome A) : list B → A → outcome A :=
  fix go l a :=
    match l with
    | [] => Made a
    | x :: l' => a' ← f a x; go l' a'
    end.

Section ToModels.

Variable sub_model : model_class.

(** [if current_str_items: final_items.append(sub_model(current_str_items))],
    wiping the run. *)
Definition flush (st : collector) : outcome collector :=
  match current_str_items st with
  | [] => Made st
  | _ :: _ =>
      run ← call_plain sub_model (current_str_items st);
      Made {| final_items := final_items st ++ [run];
              current_str_items := [] |}
  end.

(** One turn of the second loop. *)
Definition collect_step (st : collector) (d : doc) : outcome collector :=
  match str_kind_of d with
  | KStr =>
      Made {| final_items := final_items st;
              current_str_items := current_str_items st ++ [d] |}
  | KSerializable out =>
      Made {| final_items := final_items st;
              current_str_items := current_str_items st ++ [DLatex out] |}
  | KOther =>
      st' ← flush st;
      Made {| final_items := final_items st' ++ [d];
              current_str_items := current_str_items st' |}
  end.

(** The second loop and the flush of what is left over. *)
Definition collect_strs (docs : list doc) : outcome (list doc) :=
  st ← fold_outcome collect_step docs
         {| final_items := []; current_str_items := [] |};
  st' ← flush st;
  Made (final_items st').

(** The first loop's body: a nested [LectureNotes] is converted by the
    recursive call [item.to_models(top_model=sub_model, sub_model=sub_model)],
    which runs both loops on its items and ends in
    [sub_model(final_items, title=...)]; anything else is kept. *)
Fixpoint convert (i : item) : outcome doc :=
  match i with
  | INotes its ttl =>
      items ← mapM convert its;
      final ← collect_strs items;
      call_titled sub_model final ttl
  | _ => Made (DItem i)
  end.

(** ** The same loops when every call is taken

    What the loops build when no class refuses a call, as plain
    functions; the properties below relate the code to them. *)

Definition ideal_flush (st : collector) : collector :=
  match current_str_items st with
  | [] => st
  | _ :: _ =>
      {| final_items := final_items st ++ [DModel sub_model (current_str_items st) None];
         current_str_items := [] |}
  end.

Definition ideal_step (st : collector) (d : doc) : collector :=
  match str_kind_of d with
  | KStr =>
      {| final_items := final_items st;
         current_str_items := current_str_items st ++ [d] |}
  | KSerializable out =>
      {| final_items := final_items st;
         current_str_items := current_str_items st ++ [DLatex out] |}
  | KOther =>
      let st' := ideal_flush st in
      {| final_items := final_items st' ++ [d];
         current_str_items := current_str_items st' |}
  end.

Definition ideal_collect (docs : list doc) : list doc :=
  final_items
    (ideal_flush (fold_left ideal_step docs
              {| final_items := []; current_str_items := [] |})).

(** The same loop entered with a run of strings already open, and what an
    open run turns into when it is closed. *)
Definition ideal_from (cur : list doc) (docs : list doc) : list doc :=
  final_items
    (ideal_flush (fold_left ideal_step docs
              {| final_items := []; current_str_items := cur |})).

Definition pending (cur : list doc) : list doc :=
  match cur with
  | [] => []
  | _ :: _ => [DModel sub_model cur None]
  end.

Fixpoint ideal_convert (i : item) : doc :=
  match i with
  | INotes its ttl =>
      DModel sub_model (ideal_collect (map ideal_convert its)) (Some ttl)
  | _ => DItem i
  end.

Definition ideal_built (its : list item) : list doc :=
  ideal_collect (map ideal_convert its).

(** Whether a run of strings gets collected from these documents. *)
Definition has_run (docs : list doc) : bool :=
  existsb (fun d => match str_kind_of d with KOther => false | _ => true end) docs.

(** Whether every call made while folding the items is one its class
    takes: [sub_model(run)] wherever strings occur, and
    [sub_model(..., title=...)] for every nested [LectureNotes]. *)
Fixpoint callable (i : item) : bool :=
  match i with
  | INotes its _ =>
      forallb callable its
      && (negb (has_run (map DItem its)) || accepts_plain sub_model)
      && accepts_title sub_model
  | _ => true
  end.

Definition callable_items (its : list item) : bool :=
  forallb callable its
  && (negb (has_run (map DItem its)) || accepts_plain sub_model).

End ToModels.


(** Whether a run of strings is open in the loop state. *)
Definition open_run (st : collector) : bool :=
  match current_str_items st with
  | [] => false
  | _ :: _ => true
  end.

(** The last call of [to_models]. *)
Definition wrap_top (top_model : option model_class) (final : list doc)
    (ttl : string) : outcome doc :=
  match top_model with
  | Some cls => call_titled cls final ttl
  | None => Made (DList final)
  end.

(** ** LectureNotes *)

Module LectureNotes.

Record t := mk {
  items : list item;
  title : string
}.

(** A nested note object as an item of its parent. *)
Definition as_item (n : t) : item := INotes (items n) (title n).

(** [to_rst]: extend [lines] note by note, then format. *)
Definition to_rst (self : t) : result string :=
  lines ← mapM to_rst_bullet_content (items self);
  Ok (rst_of_lines (concat lines)).

(** [to_models] hands back [top_model(final_items, title=self.title)], or
    the bare list when [top_model] is [None]; a call a class does not take
    ends it with [TypeError]. *)
Definition to_models (top_model : option model_class) (sub_model : model_class)
    (self : t) : outcome doc :=
  items ← mapM (convert sub_model) (items self);
  final_items ← collect_strs sub_model items;
  match top_model with
  | Some cls => call_titled cls final_items (title self)
  | None => Made (DList final_items)
  end.

(** [__getitem__] at an integer. *)
Definition getitem (self : t) (i : Z) : option item := py_index (items self) i.

(** The method [to_pyexlatex_content]. *)
Definition to_pyexlatex_content (self : t) : list pyx :=
  map to_pyexlatex_content (items self).

End LectureNotes.

(** ** Lecture and LectureGroup *)

Module Lecture.

Record t := mk {
  title : string;
  week_covered : Z;
  notes : option LectureNotes.t;
  youtube_id : option string;
  resources : option (list LectureResource.t)
}.

Section Rendering.

(** [datetime.strftime] and [build_tools.ext_rst.header_rst], taken as
    given. *)
Variable strftime : datetime → string → string.
Variable header_rst : string → Z → string.

Definition _youtube_rst (self : t) : string :=
  match youtube_id self with
  | Some yid =>
      "" +:+ (nl +:+ ".. youtube:: " +:+ yid +:+ nl
              +:+ "    :height: 315" +:+ nl
              +:+ "    :width: 560" +:+ nl
              +:+ "    :align: center" +:+ nl
              +:+ nl
              +:+ "|" +:+ nl
              +:+ "            ")
  | None => ""
  end.

Definition _notes_rst (self : t) : result string :=
  match notes self with
  | Some n =>
      rst ← LectureNotes.to_rst n;
      Ok (("" +:+ header_rst "Notes" 4) +:+ rst)
  | None => Ok ""
  end.

(** [if self.resources:] skips both [None] and the empty sequence. *)
Definition _resources_rst (self : t) : result string :=
  match resources self with
  | Some (r :: rs) =>
      rsts ← mapM (LectureResource.to_rst strftime) (r :: rs);
      Ok ("" +:+ (header_rst "Resources" 4 +:+ nl +:+ join nl rsts +:+ nl))
  | Some [] | None => Ok ""
  end.

Definition to_rst (self : t) : result string :=
  let out0 := header_rst (title self) 3 in
  let out1 := out0 +:+ _youtube_rst self in
  n ← _notes_rst self;
  let out2 := out1 +:+ n in
  r ← _resources_rst self;
  Ok (out2 +:+ r).

End Rendering.

End Lecture.

Module LectureGroup.

Inductive order_t :=
| OrderInt (z : Z)
| OrderStr (s : string).

Record t := mk {
  title : string;
  description : string;
  lectures : list Lecture.t;
  order : order_t;
  global_resources : list LectureResource.t
}.

(** [if resource not in resources: resources.append(resource)]. *)
Definition add_resource (resources : list LectureResource.t)
    (resource : LectureResource.t) : list LectureResource.t :=
  if LectureResource.contains resource resources
  then resources
  else resources ++ [resource].

(** The body of [for lecture in self]: [if lecture.resources:] skips both
    [None] and the empty sequence. *)
Definition add_lecture (resources : list LectureResource.t)
    (lecture : Lecture.t) : list LectureResource.t :=
  match Lecture.resources lecture with
  | Some (r :: rs) => fold_left add_resource (r :: rs) resources
  | Some [] | None => resources
  end.

(** [resources] property. *)
Definition resources (self : t) : list LectureResource.t :=
  fold_left add_lecture (lectures self) (global_resources self).

(** The resources the two loops visit, in the order they visit them. *)
Definition lecture_resources (lecture : Lecture.t) : list LectureResource.t :=
  default [] (Lecture.resources lecture).

Definition scanned (self : t) : list LectureResource.t :=
  concat (map lecture_resources (lectures self)).

(** [lectures_for_week]: the comprehension, as the loop it runs. *)
Definition lectures_for_week (self : t) (week_num : Z) : list Lecture.t :=
  fold_left
    (fun (out : list Lecture.t) exc =>
       if Z.eqb (Lecture.week_covered exc) week_num then out ++ [exc] else out)
    (lectures self) [].

(** [__getitem__] at an integer. *)
Definition getitem (self : t) (i : Z) : option Lecture.t :=
  py_index (lectures self) i.

(** [to_models]: [mod.notes.to_models(...)] for every lecture, stopping at
    the first exception.  A lecture whose [notes] is [None] has no
    [to_models] to call, which gives [AttributeError]. *)
Definition to_models (top_model : option model_class) (sub_model : model_class)
    (self : t) : outcome (list doc) :=
  mapM (fun lecture =>
          match Lecture.notes lecture with
          | Some n => LectureNotes.to_models top_model sub_model n
          | None => Fails AttributeError
          end) (lectures self).

Section Rendering.

Variable strftime : datetime → string → string.
Variable header_rst : string → Z → string.

(** The block [if self.resources: ...] of [to_rst]. *)
Definition _resources_block (self : t) : result string :=
  match resources self with
  | [] => Ok ""
  | r :: rs =>
      rsts ← mapM (LectureResource.to_rst strftime) (r :: rs);
      Ok (header_rst "Resources" 3 +:+ nl +:+ join nl rsts +:+ nl)
  end.

Definition to_rst (self : t) : result string :=
  let out0 := header_rst (title self) 2 in
  let out1 := out0 +:+ (nl +:+ description self +:+ nl) in
  block ← _resources_block self;
  let out2 := out1 +:+ block in
  rsts ← mapM (Lecture.to_rst strftime header_rst) (lectures self);
  Ok (fold_left (fun out rst => out +:+ rst) rsts out2).

End Rendering.

End LectureGroup.

(** ** The renderers with an explicit call budget

    Python runs the renderers as nested calls.  The versions below spend
    one unit of [fuel] per call of [to_rst_bullet_content] or [to_models]
    and stop with [OutOfFuel] when none is left, so that termination is a
    statement about them and not a by-product of how they were defined. *)

Inductive run (A : Type) :=
| Done (r : result A)
| OutOfFuel.
Arguments Done {A} r.
Arguments OutOfFuel {A}.

Global Instance run_bind : MBind run := λ A B k r,
  match r with
  | Done (Ok a) => k a
  | Done (Raise e) => Done (Raise e)
  | OutOfFuel => OutOfFuel
  end.

Global Instance run_ret : MRet run := λ A a, Done (Ok a).

Fixpoint to_rst_bullet_content_fuel (fuel : nat) (i : item) : run (list string) :=
  match fuel with
  | 0 => OutOfFuel
  | S fuel' =>
    match i with
    | IStr s => mret [s]
    | ISeq xs =>
        subs ← mapM (to_rst_bullet_content_fuel fuel') xs;
        mret [join " " (concat subs)]
    | INotes its _ =>
        lines ← mapM (to_rst_bullet_content_fuel fuel') its;
        mret [rst_of_lines (concat lines)]
    | IEquation latex => mret [Equation.to_rst latex]
    | ILink href dt => mret [Link.to_rst href dt]
    | IObject o =>
        match obj_to_rst o with
        | Some call => s ← Done call; mret [s]
        | None => Done (Raise ValueError)
        end
    end
  end.

Definition to_rst_fuel (fuel : nat) (self : LectureNotes.t) : run string :=
  lines ← mapM (to_rst_bullet_content_fuel fuel) (LectureNotes.items self);
  mret (rst_of_lines (concat lines)).

Inductive mrun (A : Type) :=
| MDone (r : outcome A)
| MOutOfFuel.
Arguments MDone {A} r.
Arguments MOutOfFuel {A}.

Global Instance mrun_bind : MBind mrun := λ A B k r,
  match r with
  | MDone (Made a) => k a
  | MDone (Fails e) => MDone (Fails e)
  | MOutOfFuel => MOutOfFuel
  end.

Global Instance mrun_ret : MRet mrun := λ A a, MDone (Made a).

Fixpoint to_models_fuel (fuel : nat) (top_model : option model_class)
    (sub_model : model_class) (its : list item) (ttl : string) : mrun doc :=
  match fuel with
  | 0 => MOutOfFuel
  | S fuel' =>
      items ← mapM (fun i =>
                 match i with
                 | INotes its' ttl' =>
                     to_models_fuel fuel' (Some sub_model) sub_model its' ttl'
                 | _ => mret (DItem i)
                 end) its;
      final ← MDone (collect_strs sub_model items);
      match top_model with
      | Some cls => MDone (call_titled cls final ttl)
      | None => mret (DList final)
      end
  end.

(** The call made for one item in the first loop of [to_models]. *)
Definition convert_call (fuel : nat) (sub_model : model_class) (i : item) : mrun doc :=
  match i with
  | INotes its' ttl' => to_models_fuel fuel (Some sub_model) sub_model its' ttl'
  | _ => mret (DItem i)
  end.

(** How deep the nesting of sequences and sub-notes goes. *)
Fixpoint height (i : item) : nat :=
  match i with
  | ISeq xs => S (max_list (map height xs))
  | INotes its _ => S (max_list (map height its))
  | _ => 0
  end.

(** The items a renderer is called on again from inside an item. *)
Definition children (i : item) : list item :=
  match i with
  | ISeq xs => xs
  | INotes its _ => its
  | _ => []
  end.

(** ** Which items cannot be rendered to reStructuredText *)

(** [isinstance(item, str)], [isinstance(item, (list, tuple))] and
    [hasattr(item, 'to_rst')]. *)
Definition is_str (i : item) : bool :=
  match i with IStr _ => true | _ => false end.

Definition is_seq (i : item) : bool :=
  match i with ISeq _ => true | _ => false end.

(** Calling [item.to_rst()]; [None] when the attribute is missing. *)
Definition call_to_rst (i : item) : option (result string) :=
  match i with
  | IStr _ | ISeq _ => None
  | INotes its ttl => Some (LectureNotes.to_rst (LectureNotes.mk its ttl))
  | IEquation latex => Some (Ok (Equation.to_rst latex))
  | ILink href dt => Some (Ok (Link.to_rst href dt))
  | IObject o => obj_to_rst o
  end.

Definition has_to_rst (i : item) : bool := bool_decide (is_Some (call_to_rst i)).

(** An item is unrenderable when it, or something reached from it through
    sequences and sub-notes, is an object without [to_rst] or one whose
    [to_rst] raises. *)
Fixpoint unrenderable (i : item) : bool :=
  match i with
  | IStr _ | IEquation _ | ILink _ _ => false
  | ISeq xs => existsb unrenderable xs
  | INotes its _ => existsb unrenderable its
  | IObject o =>
      match obj_to_rst o with
      | Some (Ok _) => false
      | Some (Raise _) | None => true
      end
  end.

(** Trees built from what the module itself provides: strings, lists and
    tuples, sub-notes, equations and links. *)
Fixpoint module_tree (i : item) : bool :=
  match i with
  | IStr _ | IEquation _ | ILink _ _ => true
  | ISeq xs => forallb module_tree xs
  | INotes its _ => forallb module_tree its
  | IObject _ => false
  end.

(** ** What folding into models means

    The description of [to_models] in words, as a relation between the
    items and the list handed to [top_model]. *)

(** What an item puts into a run of strings, when it belongs to one: a
    string goes in as it is, an object exposing [to_pyexlatex] goes in
    serialized. *)
Definition run_entry (i : item) : option doc :=
  match i with
  | IStr s => Some (DItem (IStr s))
  | IEquation latex => Some (DLatex (PlEquation latex))
  | ILink href dt => Some (DLatex (Hyperlink href dt))
  | IObject o => DLatex <$> obj_to_pyexlatex o
  | ISeq _ | INotes _ _ => None
  end.

Inductive Folded (sub_model : model_class) : list item → list doc → Prop :=
| Folded_nil :
    Folded sub_model [] []
| Folded_notes its ttl rest inner out :
    Folded sub_model its inner →
    Folded sub_model rest out →
    Folded sub_model (INotes its ttl :: rest)
                     (DModel sub_model inner (Some ttl) :: out)
| Folded_other i rest out :
    run_entry i = None →
    (∀ its ttl, i ≠ INotes its ttl) →
    Folded sub_model rest out →
    Folded sub_model (i :: rest) (DItem i :: out)
| Folded_run strs entries rest out :
    strs ≠ [] →
    mapM run_entry strs = Some entries →
    (∀ i, head rest = Some i → run_entry i = None) →
    Folded sub_model rest out →
    Folded sub_model (strs ++ rest) (DModel sub_model entries None :: out).

(** ** Scans that skip what is already there *)

(** The tail a scan adds to what was collected before it: every element
    was new when it was appended. *)
Inductive fresh_tail : list LectureResource.t → list LectureResource.t → Prop :=
| fresh_nil acc : fresh_tail acc []
| fresh_cons acc r added :
    LectureResource.contains r acc = false →
    fresh_tail (acc ++ [r]) added →
    fresh_tail acc (r :: added).

(** ** Lecture groups of the course ([config.py]) *)

Section Config.

(** The lecture constructors live in other modules; what they return is
    taken as given. *)
Variable G : Type.
Variables (intro_lecture start_python_excel_lecture dynamic_salary_excel_lecture
           python_basics_lecture dynamic_salary_python_lecture
           visualization_lecture projects_lecture lab_exercises_lecture : G).

Definition get_lecture_groups (include_labs include_projects : bool) : list G :=
  let lectures :=
    [ intro_lecture; start_python_excel_lecture; dynamic_salary_excel_lecture;
      python_basics_lecture; dynamic_salary_python_lecture; visualization_lecture ] in
  if negb include_labs && negb include_projects then lectures
  else
    let projects := [projects_lecture] in
    if negb include_labs then lectures ++ projects
    else
      let lab_exercises := [lab_exercises_lecture] in
      lectures ++ projects ++ lab_exercises.

End Config.

(** ** Vocabulary of the further properties *)

(** No element of the list is [==] to one before it. *)
Definition pairwise_distinct (l : list LectureResource.t) : Prop :=
  ∀ pre r post, l = pre ++ r :: post → LectureResource.contains r pre = false.

(** A resource with neither link. *)
Definition no_link (r : LectureResource.t) : Prop :=
  LectureResource.static_url r = None ∧ LectureResource.external_url r = None.

(** The notes of a lecture that cannot be rendered. *)
Definition bad_notes (l : Lecture.t) : Prop :=
  ∃ n, Lecture.notes l = Some n ∧
       existsb unrenderable (LectureNotes.items n) = true.

(** Every underscore of the text comes right after a backslash; [prev] is
    the character before the text. *)
Fixpoint well_escaped (prev : ascii) (s : string) : bool :=
  match s with
  | EmptyString => true
  | String c s' =>
      (negb (Ascii.eqb c "_"%char) || Ascii.eqb prev "\"%char) && well_escaped c s'
  end.

Fixpoint count_underscores (s : string) : nat :=
  match s with
  | EmptyString => 0
  | String c s' => (if Ascii.eqb c "_"%char then 1 else 0) + count_underscores s'
  end.

(** What an item leaves in the list [to_models] builds, and the entries
    an element of that list stands for: a run made by the loop has no
    title and stands for its entries, anything else for itself. *)
Definition slot (sub_model : model_class) (i : item) : doc :=
  match run_entry i with
  | Some e => e
  | None => ideal_convert sub_model i
  end.

Definition unwrap_run (d : doc) : list doc :=
  match d with
  | DModel _ entries None => entries
  | _ => [d]
  end.

(** ** The lines of a rendered text *)




(** ** Sample data *)

(** An object with neither [to_rst] nor [to_pyexlatex], such as an [int]. *)
Definition plain_object : object :=
  {| obj_to_rst := None; obj_to_pyexlatex := None |}.

(** A list holding such an object. *)
Definition list_of_plain : item := ISeq [IObject plain_object].

Definition sample_notes : LectureNotes.t :=
  LectureNotes.mk
    [ IStr "Use for loops";
      ISeq [IStr "Rate is"; IEquation "r = 0.05"];
      INotes [IStr "inner"] "Details";
      IStr "Done" ]
    "Lab".


Definition sample_slides : LectureResource.t :=
  LectureResource.mk "Slides" (Some "generated/pdfs/S2.pdf") None None (Some 2%Z)
    LectureResource.default_fmt.

Definition sample_site : LectureResource.t :=
  LectureResource.mk "Site" None (Some "https://example.org") None None
    LectureResource.default_fmt.

Definition lecture_one : Lecture.t :=
  Lecture.mk "One" 1 None None (Some [sample_site; sample_slides]).

Definition lecture_two : Lecture.t :=
  Lecture.mk "Two" 2 (Some sample_notes) None None.

Definition lecture_three : Lecture.t :=
  Lecture.mk "Three" 1 None None (Some [sample_site]).

Definition sample_group : LectureGroup.t :=
  LectureGroup.mk "Intro" "First steps"
    [lecture_one; lecture_two; lecture_three]
    (LectureGroup.OrderInt 1)
    [sample_slides; sample_slides].

(** * Properties *)

(** ** LectureResource *)

Lemma py_eq_str a b : py_eq (PyStr a) (PyStr b) = bool_decide (a = b).
Proof. unfold py_eq. apply bool_decide_ext. split; congruence. Qed.

Lemma py_eq_optional a b :
  py_eq (of_optional a) (of_optional b) = bool_decide (a = b).
Proof.
  unfold py_eq. apply bool_decide_ext.
  destruct a, b; simpl; split; congruence.
Qed.

Lemma resource_eq_fields (a b : LectureResource.t) :
  LectureResource.eq a (LectureResource.ObjResource b) = true ↔
  LectureResource.name a = LectureResource.name b ∧
  LectureResource.static_url a = LectureResource.static_url b ∧
  LectureResource.external_url a = LectureResource.external_url b.
Proof.
  unfold LectureResource.eq. simpl.
  rewrite py_eq_str, !py_eq_optional. unfold LectureResource.all. simpl.
  rewrite !andb_true_iff, !bool_decide_eq_true. unfold id. tauto.
Qed.

Lemma resource_eq_refl (a : LectureResource.t) :
  LectureResource.eq a (LectureResource.ObjResource a) = true.
Proof. apply resource_eq_fields; auto. Qed.

(** C9.  [__eq__] looks at [name], [static_url] and [external_url] and at
    nothing else: two resources are equal exactly when they agree on the
    three, whatever [updated], [index] and [datetime_fmt] hold; and an
    object that lacks one of the three attributes compares unequal, with
    no exception. *)
Theorem resource_eq_three_fields :
  (∀ n s e u1 i1 f1 u2 i2 f2,
      LectureResource.eq (LectureResource.mk n s e u1 i1 f1)
        (LectureResource.ObjResource (LectureResource.mk n s e u2 i2 f2)) = true) ∧
  (∀ a b,
      LectureResource.eq a (LectureResource.ObjResource b) = true ↔
      LectureResource.name a = LectureResource.name b ∧
      LectureResource.static_url a = LectureResource.static_url b ∧
      LectureResource.external_url a = LectureResource.external_url b) ∧
  (∀ self attrs,
      attrs !! "name" = None ∨ attrs !! "static_url" = None ∨
      attrs !! "external_url" = None →
      LectureResource.eq self (LectureResource.ObjAttrs attrs) = false).
Proof.
  split; [|split].
  - intros. apply resource_eq_fields; auto.
  - apply resource_eq_fields.
  - intros self attrs H. unfold LectureResource.eq. simpl.
    destruct (attrs !! "name") as [vn|]; [|done].
    destruct (attrs !! "static_url") as [vs|]; [|done].
    destruct (attrs !! "external_url") as [ve|]; [|done].
    destruct H as [H|[H|H]]; discriminate.
Qed.

Lemma resource_eq_three_fields_witness :
  LectureResource.eq sample_slides
    (LectureResource.ObjAttrs {[ "name" := PyStr "Slides" ]}) = false.
Proof.
  apply (proj2 (proj2 resource_eq_three_fields)).
  right. left. by vm_compute.
Defined.

(** C6.  [url] is ["/_static/"] followed by [static_url] whenever that is
    set, whatever [external_url] holds; it is [external_url] when only that
    is set; and it is [None] when neither is. *)
Theorem url_cases :
  (∀ n s e u i f,
      LectureResource.url (LectureResource.mk n (Some s) e u i f)
      = Some ("/_static/" +:+ s)) ∧
  (∀ n e u i f,
      LectureResource.url (LectureResource.mk n None (Some e) u i f) = Some e) ∧
  (∀ n u i f,
      LectureResource.url (LectureResource.mk n None None u i f) = None).
Proof. by repeat split. Qed.

(** C7.  [to_rst] raises [ValueError] exactly when [static_url] and
    [external_url] are both [None]; with [static_url] set it gives the
    download directive, and with only [external_url] set the external
    link. *)
Theorem resource_to_rst_cases (strftime : datetime → string → string)
    (self : LectureResource.t) :
  (LectureResource.to_rst strftime self = Raise ValueError ↔
     LectureResource.static_url self = None ∧
     LectureResource.external_url self = None) ∧
  (∀ s, LectureResource.static_url self = Some s →
     LectureResource.to_rst strftime self
     = Ok (nl +:+ "- :download:`" +:+ LectureResource.display_name strftime self
              +:+ " </_static/" +:+ s +:+ ">`" +:+ nl +:+ "        ")) ∧
  (∀ e, LectureResource.static_url self = None →
     LectureResource.external_url self = Some e →
     LectureResource.to_rst strftime self
     = Ok (nl +:+ "- `" +:+ LectureResource.display_name strftime self
              +:+ " <" +:+ e +:+ ">`_" +:+ nl +:+ "        ")).
Proof.
  unfold LectureResource.to_rst, LectureResource._to_download_rst,
    LectureResource._to_external_link_rst, LectureResource.url.
  destruct (LectureResource.static_url self) as [s|],
    (LectureResource.external_url self) as [e|]; simpl;
    (split; [intuition congruence|]);
    split; intros; simplify_eq; done.
Qed.

Lemma resource_to_rst_cases_witness :
  LectureResource.to_rst (λ _ _, "") sample_site
  = Ok (nl +:+ "- `" +:+ LectureResource.display_name (λ _ _, "") sample_site
           +:+ " <" +:+ "https://example.org" +:+ ">`_" +:+ nl +:+ "        ").
Proof.
  apply (proj2 (proj2 (resource_to_rst_cases (λ _ _, "") sample_site)));
    reflexivity.
Defined.

(** ** LectureGroup *)

Section GroupFacts.

Implicit Types (r : LectureResource.t) (rs acc : list LectureResource.t).

Lemma contains_app r acc rs :
  LectureResource.contains r (acc ++ rs)
  = LectureResource.contains r acc || LectureResource.contains r rs.
Proof. unfold LectureResource.contains. apply existsb_app. Qed.

Lemma contains_elem r acc : r ∈ acc → LectureResource.contains r acc = true.
Proof.
  intros Hin. unfold LectureResource.contains. apply existsb_exists.
  exists r. split; [by apply list_elem_of_In | apply resource_eq_refl].
Qed.

Lemma fresh_tail_split acc added :
  fresh_tail acc added →
  ∀ pre r post, added = pre ++ r :: post →
    LectureResource.contains r (acc ++ pre) = false.
Proof.
  induction 1 as [acc|acc r0 added Hnew _ IH]; intros pre r post Heq.
  - by destruct pre.
  - destruct pre as [|p pre]; simpl in Heq; simplify_eq.
    + by rewrite app_nil_r.
    + specialize (IH pre r post eq_refl). by rewrite <- app_assoc in IH.
Qed.

Lemma add_resources_scan rs : ∀ acc,
  ∃ added,
    fold_left LectureGroup.add_resource rs acc = acc ++ added ∧
    added `sublist_of` rs ∧
    fresh_tail acc added ∧
    ∀ r, r ∈ rs → LectureResource.contains r (acc ++ added) = true.
Proof.
  induction rs as [|r rs IH]; intros acc; simpl.
  - exists []. rewrite app_nil_r. repeat split; [constructor..|].
    intros r Hr. by apply elem_of_nil in Hr.
  - unfold LectureGroup.add_resource at 2.
    destruct (LectureResource.contains r acc) eqn:Hin.
    + destruct (IH acc) as (added & Hfold & Hsub & Hfresh & Hall).
      exists added. repeat split; [done|by apply sublist_cons|done|].
      intros r' [->|Hr']%elem_of_cons; [|by apply Hall].
      by rewrite contains_app, Hin.
    + destruct (IH (acc ++ [r])) as (added & Hfold & Hsub & Hfresh & Hall).
      exists (r :: added).
      rewrite Hfold, <- app_assoc. simpl.
      repeat split; [by apply sublist_skip|by constructor|].
      intros r' [->|Hr']%elem_of_cons.
      * apply contains_elem. apply elem_of_app. right. apply elem_of_cons. by left.
      * specialize (Hall r' Hr'). by rewrite <- app_assoc in Hall.
Qed.

Lemma add_lecture_scan acc (lecture : Lecture.t) :
  LectureGroup.add_lecture acc lecture
  = fold_left LectureGroup.add_resource (LectureGroup.lecture_resources lecture) acc.
Proof.
  unfold LectureGroup.add_lecture, LectureGroup.lecture_resources.
  by destruct (Lecture.resources lecture) as [[|r rs]|].
Qed.

Lemma add_lectures_scan (ls : list Lecture.t) : ∀ acc,
  fold_left LectureGroup.add_lecture ls acc
  = fold_left LectureGroup.add_resource
      (concat (map LectureGroup.lecture_resources ls)) acc.
Proof.
  induction ls as [|l ls IH]; intros acc; simpl; [done|].
  by rewrite fold_left_app, IH, add_lecture_scan.
Qed.

Lemma collect_week_filter (w : Z) (ls : list Lecture.t) : ∀ out,
  fold_left
    (fun (out : list Lecture.t) exc =>
       if Z.eqb (Lecture.week_covered exc) w then out ++ [exc] else out) ls out
  = out ++ filter (λ l, Lecture.week_covered l = w) ls.
Proof.
  induction ls as [|l ls IH]; intros out; simpl.
  - by rewrite app_nil_r.
  - rewrite IH. destruct (Z.eqb_spec (Lecture.week_covered l) w) as [Heq|Hne].
    + rewrite filter_cons_True by done. by rewrite <- app_assoc.
    + by rewrite filter_cons_False.
Qed.

Lemma sublist_into_filter {A} (P : A → Prop) `{!∀ x, Decision (P x)}
    (sel l : list A) :
  sel `sublist_of` l → Forall P sel → sel `sublist_of` filter P l.
Proof.
  induction 1 as [|x sel l _ IH|x sel l _ IH]; intros Hall.
  - constructor.
  - apply Forall_cons in Hall as [Hx Hall].
    rewrite filter_cons_True by done. apply sublist_skip. by apply IH.
  - destruct (decide (P x)).
    + rewrite filter_cons_True by done. apply sublist_cons. by apply IH.
    + rewrite filter_cons_False by done. by apply IH.
Qed.

Lemma resources_scan_shape (g : LectureGroup.t) :
  ∃ added, LectureGroup.resources g = LectureGroup.global_resources g ++ added.
Proof.
  unfold LectureGroup.resources. rewrite add_lectures_scan.
  destruct (add_resources_scan
              (concat (map LectureGroup.lecture_resources (LectureGroup.lectures g)))
              (LectureGroup.global_resources g)) as (added & Hfold & _).
  by exists added.
Qed.

End GroupFacts.

(** C1.  The list [resources] returns is the global resources followed by
    what the scan of the lectures added.  The scan goes through the
    lectures in order and through each one's resources in order, so what
    it added keeps that order; a resource was added only when it was equal
    to nothing before it in the returned list; and every resource a
    lecture holds is equal to something in the returned list. *)
Theorem resources_dedup (g : LectureGroup.t) :
  ∃ added,
    LectureGroup.resources g = LectureGroup.global_resources g ++ added ∧
    added `sublist_of` LectureGroup.scanned g ∧
    (∀ pre r post, added = pre ++ r :: post →
       LectureResource.contains r (LectureGroup.global_resources g ++ pre) = false) ∧
    (∀ r, r ∈ LectureGroup.scanned g →
       LectureResource.contains r (LectureGroup.resources g) = true).
Proof.
  unfold LectureGroup.resources, LectureGroup.scanned.
  rewrite add_lectures_scan.
  destruct (add_resources_scan
              (concat (map LectureGroup.lecture_resources (LectureGroup.lectures g)))
              (LectureGroup.global_resources g))
    as (added & Hfold & Hsub & Hfresh & Hall).
  exists added. rewrite Hfold. repeat split; [done| |done].
  by apply fresh_tail_split.
Qed.

Example resources_sample :
  LectureGroup.resources sample_group
  = [sample_slides; sample_slides; sample_site].
Proof. reflexivity. Qed.

Lemma resources_dedup_witness :
  LectureResource.contains sample_site (LectureGroup.resources sample_group) = true.
Proof.
  destruct (resources_dedup sample_group) as (added & _ & _ & _ & Hall).
  apply Hall. apply list_elem_of_In. simpl. auto.
Defined.

(** C10.  The returned list begins with [global_resources] as given, in
    the same order and with whatever duplicates it has: the membership test
    guards only the resources taken from lectures. *)
Theorem resources_keep_globals (g : LectureGroup.t) :
  LectureGroup.global_resources g `prefix_of` LectureGroup.resources g ∧
  take (length (LectureGroup.global_resources g)) (LectureGroup.resources g)
  = LectureGroup.global_resources g.
Proof.
  destruct (resources_scan_shape g) as (added & ->).
  split; [by exists added | by rewrite take_app_length].
Qed.

(** C8.  [lectures_for_week] returns the lectures of the group whose
    [week_covered] is the week asked for, all of them and no other, in the
    order the group lists them. *)
Theorem lectures_for_week_exact (g : LectureGroup.t) (week_num : Z) :
  let picked := LectureGroup.lectures_for_week g week_num in
  picked `sublist_of` LectureGroup.lectures g ∧
  (∀ l, l ∈ picked ↔ l ∈ LectureGroup.lectures g ∧ Lecture.week_covered l = week_num) ∧
  (∀ sel, sel `sublist_of` LectureGroup.lectures g →
     Forall (λ l, Lecture.week_covered l = week_num) sel →
     sel `sublist_of` picked).
Proof.
  simpl. unfold LectureGroup.lectures_for_week.
  rewrite collect_week_filter. simpl.
  split; [apply sublist_filter|split].
  - intros l. by rewrite list_elem_of_filter, (comm and).
  - intros sel. apply sublist_into_filter.
Qed.

Lemma lectures_for_week_exact_witness :
  [lecture_one; lecture_three]
    `sublist_of` LectureGroup.lectures_for_week sample_group 1.
Proof.
  apply (proj2 (proj2 (lectures_for_week_exact sample_group 1))).
  - apply sublist_skip, sublist_cons, sublist_skip, sublist_nil.
  - by repeat constructor.
Defined.

(** ** Rendering notes to reStructuredText *)

Section ResultMonad.

Context {A B : Type}.
Implicit Types (f : A → result B) (l : list A).


Lemma mapM_result_cons f x l :
  mapM f (x :: l) = (y ← f x; ys ← mapM f l; Ok (y :: ys)).
Proof. reflexivity. Qed.

Lemma mapM_result_Ok f l ys :
  mapM f l = Ok ys ↔ Forall2 (λ x y, f x = Ok y) l ys.
Proof.
  revert ys. induction l as [|x l IH]; intros ys.
  - simpl. split.
    + intros [= <-]. constructor.
    + intros H. by inversion H.
  - rewrite mapM_result_cons. split.
    + destruct (f x) as [y|e] eqn:Hx; simpl; [|done].
      destruct (mapM f l) as [ys'|e] eqn:Hl; simpl; [|done].
      intros [= <-]. constructor; [done|]. by apply IH.
    + intros H. inversion H as [|? y ? ys' Hx Hall]; subst.
      apply IH in Hall. by rewrite Hx, Hall.
Qed.

Lemma mapM_result_Raise f l :
  mapM f l = Raise ValueError ↔ Exists (λ x, f x = Raise ValueError) l.
Proof.
  induction l as [|x l IH].
  - simpl. split; [done|]. intros H. inversion H.
  - rewrite mapM_result_cons, Exists_cons, <- IH.
    destruct (f x) as [y|[]]; simpl.
    + destruct (mapM f l) as [ys|[]]; simpl;
        (split; [try discriminate; auto | intros [?|?]; try discriminate; auto]).
    + split; auto.
Qed.

End ResultMonad.

Lemma existsb_Exists {A} (p : A → bool) (l : list A) :
  existsb p l = true ↔ Exists (λ x, p x = true) l.
Proof.
  rewrite existsb_exists, Exists_exists.
  split; intros (x & Hin & Hp); exists x; split; auto; by apply list_elem_of_In.
Qed.

(** [to_rst_bullet_content] raises exactly on the unrenderable items. *)
Lemma bullet_content_raises (i : item) :
  to_rst_bullet_content i = Raise ValueError ↔ unrenderable i = true.
Proof.
  induction i as [s|xs IH|its ttl IH|latex|href dt|o] using item_nested_ind; simpl;
    try (split; discriminate).
  - rewrite existsb_Exists.
    destruct (mapM to_rst_bullet_content xs) as [subs|[]] eqn:Hm; simpl.
    + split; [done|]. intros Hex. exfalso.
      assert (mapM to_rst_bullet_content xs = Raise ValueError) as Hr; [|congruence].
      apply mapM_result_Raise.
      rewrite Forall_forall in IH. rewrite Exists_exists in *.
      destruct Hex as (x & Hin & Hx). exists x. split; [done|]. by apply IH.
    + split; [intros _|done].
      apply mapM_result_Raise in Hm.
      rewrite Forall_forall in IH. rewrite Exists_exists in *.
      destruct Hm as (x & Hin & Hx). exists x. split; [done|]. by apply IH.
  - rewrite existsb_Exists.
    destruct (mapM to_rst_bullet_content its) as [subs|[]] eqn:Hm; simpl.
    + split; [done|]. intros Hex. exfalso.
      assert (mapM to_rst_bullet_content its = Raise ValueError) as Hr; [|congruence].
      apply mapM_result_Raise.
      rewrite Forall_forall in IH. rewrite Exists_exists in *.
      destruct Hex as (x & Hin & Hx). exists x. split; [done|]. by apply IH.
    + split; [intros _|done].
      apply mapM_result_Raise in Hm.
      rewrite Forall_forall in IH. rewrite Exists_exists in *.
      destruct Hm as (x & Hin & Hx). exists x. split; [done|]. by apply IH.
  - destruct (obj_to_rst o) as [[s|[]]|]; simpl; split; done.
Qed.

(** Whatever it is given, [to_rst_bullet_content] returns one line. *)
Lemma bullet_content_single (i : item) (ls : list string) :
  to_rst_bullet_content i = Ok ls → ∃ line, ls = [line].
Proof.
  destruct i as [s|xs|its ttl|latex|href dt|o]; simpl.
  - intros [= <-]. eauto.
  - destruct (mapM to_rst_bullet_content xs); simpl; intros [= <-]; eauto.
  - destruct (mapM to_rst_bullet_content its); simpl; intros [= <-]; eauto.
  - intros [= <-]. eauto.
  - intros [= <-]. eauto.
  - destruct (obj_to_rst o) as [[s|e]|]; simpl; intros [= <-]; eauto.
Qed.



Lemma module_tree_renderable (i : item) :
  module_tree i = true → unrenderable i = false.
Proof.
  induction i as [s|xs IH|its ttl IH|latex|href dt|o] using item_nested_ind;
    simpl; try done.
  - intros Hall. apply not_true_is_false. intros Hex.
    apply existsb_Exists, Exists_exists in Hex as (x & Hin & Hx).
    rewrite Forall_forall in IH. rewrite forallb_forall in Hall.
    rewrite IH in Hx; [done|done|]. by apply Hall, list_elem_of_In.
  - intros Hall. apply not_true_is_false. intros Hex.
    apply existsb_Exists, Exists_exists in Hex as (x & Hin & Hx).
    rewrite Forall_forall in IH. rewrite forallb_forall in Hall.
    rewrite IH in Hx; [done|done|]. by apply Hall, list_elem_of_In.
Qed.

Lemma string_app_assoc (a b c : string) : (a +:+ b) +:+ c = a +:+ (b +:+ c).
Proof.
  induction a as [|x a IH]; [done|].
  change (String x ((a +:+ b) +:+ c) = String x (a +:+ (b +:+ c))).
  by rewrite IH.
Qed.

Lemma join_cons_ne (sep x : string) (l : list string) :
  l ≠ [] → join sep (x :: l) = x +:+ sep +:+ join sep l.
Proof. by destruct l. Qed.


Example sample_notes_rst :
  LectureNotes.to_rst sample_notes
  = Ok (nl +:+ "- Use for loops" +:+ nl
          +:+ "- Rate is :math:`r = 0.05`" +:+ nl
          +:+ "- " +:+ nl +:+ "- inner" +:+ nl +:+ nl
          +:+ "- Done" +:+ nl).
Proof. reflexivity. Qed.

Example sample_slides_rst strftime :
  LectureResource.to_rst strftime sample_slides
  = Ok (nl +:+ "- :download:`2 Slides </_static/generated/pdfs/S2.pdf>`"
          +:+ nl +:+ "        ").
Proof. reflexivity. Qed.










(** C4, as stated, fails: a list is a list, and still [ValueError] comes
    out of [to_rst_bullet_content] when the list holds an object that has
    no [to_rst]. *)
Lemma bullet_content_list_raises :
  ¬ (to_rst_bullet_content list_of_plain = Raise ValueError ↔
     is_str list_of_plain = false ∧ is_seq list_of_plain = false ∧
     has_to_rst list_of_plain = false).
Proof. intros [H _]. by destruct (H eq_refl) as (_ & Hseq & _). Qed.

(** C4, amended.  An item that is no string, no list or tuple and has no
    [to_rst] makes [to_rst_bullet_content] raise [ValueError]; over all
    items, [ValueError] comes out exactly when the item, or an item reached
    from it through lists, tuples and sub-notes, is an object without
    [to_rst] or with a [to_rst] that raises; and an item exposing [to_rst]
    is rendered by that method: the outcome is the one-element list of what
    the method returns, or the exception the method raised. *)
Theorem bullet_content_value_error (i : item) :
  (is_str i = false ∧ is_seq i = false ∧ has_to_rst i = false →
     to_rst_bullet_content i = Raise ValueError) ∧
  (to_rst_bullet_content i = Raise ValueError ↔ unrenderable i = true) ∧
  (∀ call, call_to_rst i = Some call →
     to_rst_bullet_content i = (s ← call; Ok [s])).
Proof.
  split; [|split].
  - destruct i as [s|xs|its ttl|latex|href dt|o]; unfold has_to_rst; simpl;
      intros (Hstr & Hseq & Hrst); try done.
    destruct (obj_to_rst o); [|done].
    by rewrite bool_decide_eq_false in Hrst; destruct Hrst.
  - apply bullet_content_raises.
  - destruct i as [s|xs|its ttl|latex|href dt|o]; simpl; intros call Hcall;
      simplify_eq; try done.
    + unfold LectureNotes.to_rst. simpl.
      by destruct (mapM to_rst_bullet_content its).
    + by rewrite Hcall.
Qed.

Lemma bullet_content_value_error_witness :
  to_rst_bullet_content (IObject plain_object) = Raise ValueError.
Proof.
  apply (proj1 (bullet_content_value_error (IObject plain_object))).
  by repeat split.
Defined.

(** ** Termination *)

Lemma mapM_run_done {A B} (f : A → run B) (g : A → result B) (l : list A) :
  Forall (λ x, f x = Done (g x)) l → mapM f l = Done (mapM g l).
Proof.
  induction 1 as [|x l Hx _ IH]; [done|].
  change (mapM f (x :: l)) with (y ← f x; ys ← mapM f l; mret (y :: ys)).
  rewrite mapM_result_cons, Hx, IH.
  destruct (g x) as [y|e]; [|done]. simpl.
  by destruct (mapM g l).
Qed.

Lemma height_child (i c : item) : c ∈ children i → height c < height i.
Proof.
  destruct i as [s|xs|its ttl|latex|href dt|o]; simpl;
    try (intros H; by apply elem_of_nil in H).
  - intros Hin. apply Nat.lt_succ_r, max_list_elem_of_le.
    apply list_elem_of_fmap. eauto.
  - intros Hin. apply Nat.lt_succ_r, max_list_elem_of_le.
    apply list_elem_of_fmap. eauto.
Qed.

Lemma Forall_below (P : item → nat → Prop) (l : list item) (fuel : nat) :
  Forall (λ x, ∀ fuel, height x < fuel → P x fuel) l →
  max_list (map height l) < fuel →
  Forall (λ x, P x fuel) l.
Proof.
  intros Hall Hlt. rewrite Forall_forall in *. intros x Hin.
  apply Hall; [done|]. eapply Nat.le_lt_trans; [|exact Hlt].
  apply max_list_elem_of_le, list_elem_of_fmap. eauto.
Qed.

Lemma bullet_content_fuel_enough (i : item) : ∀ fuel,
  height i < fuel →
  to_rst_bullet_content_fuel fuel i = Done (to_rst_bullet_content i).
Proof.
  induction i as [s|xs IH|its ttl IH|latex|href dt|o] using item_nested_ind;
    intros [|fuel] Hlt; try lia; try done.
  - cbn [height] in Hlt. apply Nat.succ_lt_mono in Hlt.
    cbn [to_rst_bullet_content_fuel to_rst_bullet_content].
    rewrite (mapM_run_done _ to_rst_bullet_content);
      [|exact (Forall_below
                 (λ x k, to_rst_bullet_content_fuel k x
                         = Done (to_rst_bullet_content x)) xs fuel IH Hlt)].
    by destruct (mapM to_rst_bullet_content xs).
  - cbn [height] in Hlt. apply Nat.succ_lt_mono in Hlt.
    cbn [to_rst_bullet_content_fuel to_rst_bullet_content].
    rewrite (mapM_run_done _ to_rst_bullet_content);
      [|exact (Forall_below
                 (λ x k, to_rst_bullet_content_fuel k x
                         = Done (to_rst_bullet_content x)) its fuel IH Hlt)].
    by destruct (mapM to_rst_bullet_content its).
  - simpl. by destruct (obj_to_rst o) as [[s|e]|].
Qed.

Lemma mapM_mrun_done {A B} (f : A → mrun B) (g : A → outcome B) (l : list A) :
  Forall (λ x, f x = MDone (g x)) l → mapM f l = MDone (mapM g l).
Proof.
  induction 1 as [|x l Hx _ IH]; [done|].
  change (mapM f (x :: l)) with (y ← f x; ys ← mapM f l; mret (y :: ys)).
  change (mapM g (x :: l)) with (y ← g x; ys ← mapM g l; mret (y :: ys)).
  rewrite Hx, IH.
  destruct (g x) as [y|e]; [|done]. simpl.
  by destruct (mapM g l).
Qed.

Lemma to_models_fuel_unfold fuel top sub its ttl :
  to_models_fuel (S fuel) top sub its ttl
  = (items ← mapM (convert_call fuel sub) its;
     final ← MDone (collect_strs sub items);
     match top with
     | Some cls => MDone (call_titled cls final ttl)
     | None => mret (DList final)
     end).
Proof. reflexivity. Qed.

Lemma convert_call_enough (sub : model_class) (i : item) : ∀ fuel,
  height i ≤ fuel → convert_call fuel sub i = MDone (convert sub i).
Proof.
  induction i as [s|xs IH|its ttl IH|latex|href dt|o] using item_nested_ind;
    intros fuel Hle; try done.
  cbn [height] in Hle. destruct fuel as [|fuel]; [lia|].
  apply Nat.succ_le_mono in Hle.
  cbn [convert_call convert]. rewrite to_models_fuel_unfold.
  rewrite (mapM_mrun_done _ (convert sub)).
  - destruct (mapM (convert sub) its) as [items|e]; [|done]. simpl.
    by destruct (collect_strs sub items).
  - rewrite Forall_forall in *. intros x Hin. apply IH; [done|].
    etrans; [|exact Hle]. apply max_list_elem_of_le, list_elem_of_fmap. eauto.
Qed.

(** C5.  Both renderers terminate on every notes tree: run with a call
    budget above the depth of the tree, neither runs out, and each gives
    the result of the renderer.  The budget is enough because every call
    made from inside an item is on an item of smaller depth. *)
Theorem renderers_terminate (n : LectureNotes.t)
    (top_model : option model_class) (sub_model : model_class) (fuel : nat) :
  height (LectureNotes.as_item n) ≤ fuel →
  to_rst_fuel fuel n = Done (LectureNotes.to_rst n) ∧
  to_models_fuel fuel top_model sub_model
    (LectureNotes.items n) (LectureNotes.title n)
  = MDone (LectureNotes.to_models top_model sub_model n) ∧
  (∀ i c, c ∈ children i → height c < height i).
Proof.
  unfold LectureNotes.as_item. cbn [height]. intros Hle.
  destruct fuel as [|fuel]; [lia|]. apply Nat.succ_le_mono in Hle.
  split; [|split].
  - unfold to_rst_fuel, LectureNotes.to_rst.
    rewrite (mapM_run_done _ to_rst_bullet_content).
    + by destruct (mapM to_rst_bullet_content (LectureNotes.items n)).
    + rewrite Forall_forall. intros x Hin.
      apply bullet_content_fuel_enough.
      apply Nat.lt_succ_r. etrans; [|exact Hle].
      apply max_list_elem_of_le, list_elem_of_fmap. eauto.
  - rewrite to_models_fuel_unfold.
    rewrite (mapM_mrun_done _ (convert sub_model)).
    + unfold LectureNotes.to_models.
      destruct (mapM (convert sub_model) (LectureNotes.items n)) as [items|e];
        [|done]. simpl.
      destruct (collect_strs sub_model items); [|done]. simpl.
      by destruct top_model.
    + rewrite Forall_forall. intros x Hin. apply convert_call_enough.
      etrans; [|exact Hle]. apply max_list_elem_of_le, list_elem_of_fmap. eauto.
  - apply height_child.
Qed.

Lemma renderers_terminate_witness :
  to_rst_fuel 2 sample_notes = Done (LectureNotes.to_rst sample_notes) ∧
  to_models_fuel 2 (Some PlSection) PlUnorderedList
    (LectureNotes.items sample_notes) (LectureNotes.title sample_notes)
  = MDone (LectureNotes.to_models (Some PlSection) PlUnorderedList
             sample_notes) ∧
  (∀ i c, c ∈ children i → height c < height i).
Proof.
  apply (renderers_terminate sample_notes (Some PlSection) PlUnorderedList 2).
  vm_compute. lia.
Defined.

(** ** Folding notes into document models *)

Section FoldFacts.

Variable sub : model_class.

Lemma flush_pending fi cur :
  ideal_flush sub (mk_collector fi cur) = mk_collector (fi ++ pending sub cur) [].
Proof. destruct cur; simpl; [by rewrite app_nil_r|done]. Qed.

Lemma collect_step_shift d fi cur :
  ideal_step sub (mk_collector fi cur) d
  = mk_collector
      (fi ++ final_items (ideal_step sub (mk_collector [] cur) d))
      (current_str_items (ideal_step sub (mk_collector [] cur) d)).
Proof.
  unfold ideal_step. destruct (str_kind_of d); simpl.
  - by rewrite app_nil_r.
  - by rewrite app_nil_r.
  - rewrite !flush_pending. simpl. by rewrite app_assoc.
Qed.

Lemma fold_prefix (ds : list doc) : ∀ fi cur,
  fold_left (ideal_step sub) ds (mk_collector fi cur)
  = mk_collector
      (fi ++ final_items (fold_left (ideal_step sub) ds (mk_collector [] cur)))
      (current_str_items (fold_left (ideal_step sub) ds (mk_collector [] cur))).
Proof.
  induction ds as [|d ds IH]; intros fi cur; simpl.
  - by rewrite app_nil_r.
  - rewrite collect_step_shift.
    destruct (ideal_step sub (mk_collector [] cur) d) as [fi1 cur1]. simpl.
    rewrite (IH (fi ++ fi1) cur1), (IH fi1 cur1). simpl.
    by rewrite app_assoc.
Qed.

Lemma collect_from_nil cur : ideal_from sub cur [] = pending sub cur.
Proof. unfold ideal_from. simpl. by rewrite flush_pending. Qed.

Lemma collect_from_open cur d e ds :
  ideal_step sub (mk_collector [] cur) d = mk_collector [] (cur ++ [e]) →
  ideal_from sub cur (d :: ds) = ideal_from sub (cur ++ [e]) ds.
Proof. unfold ideal_from. simpl. by intros ->. Qed.

Lemma collect_from_close cur d ds :
  str_kind_of d = KOther →
  ideal_from sub cur (d :: ds) = pending sub cur ++ d :: ideal_from sub [] ds.
Proof.
  intros Hk. unfold ideal_from. simpl.
  unfold ideal_step at 2. rewrite Hk, flush_pending. simpl.
  rewrite fold_prefix. simpl.
  destruct (fold_left _ ds _) as [fi' cur'] eqn:Hst.
  rewrite !flush_pending. simpl. by rewrite <- !app_assoc.
Qed.

Lemma collect_from_entry cur i e ds :
  run_entry i = Some e →
  ideal_from sub cur (ideal_convert sub i :: ds) = ideal_from sub (cur ++ [e]) ds.
Proof.
  intros He. apply collect_from_open. unfold ideal_step.
  destruct i as [s|xs|its ttl|latex|href dt|o]; simpl in *; simplify_eq; try done.
  destruct (obj_to_pyexlatex o); simpl in *; by simplify_eq.
Qed.

Lemma collect_from_pass cur i ds :
  run_entry i = None →
  ideal_from sub cur (ideal_convert sub i :: ds)
  = pending sub cur ++ ideal_convert sub i :: ideal_from sub [] ds.
Proof.
  intros He. apply collect_from_close.
  destruct i as [s|xs|its ttl|latex|href dt|o]; simpl in *; simplify_eq; try done.
  by destruct (obj_to_pyexlatex o).
Qed.

Lemma convert_pass i :
  (∀ its ttl, i ≠ INotes its ttl) → ideal_convert sub i = DItem i.
Proof. destruct i; try done. intros H. by destruct (H its ttl). Qed.

Lemma collect_strs_from ds : ideal_collect sub ds = ideal_from sub [] ds.
Proof. reflexivity. Qed.

Lemma built_pass i rest :
  run_entry i = None → ideal_built sub (i :: rest) = ideal_convert sub i :: ideal_built sub rest.
Proof.
  intros He. unfold ideal_built. rewrite !collect_strs_from. simpl.
  by rewrite collect_from_pass.
Qed.

Lemma collect_from_run strs : ∀ entries cur ds,
  mapM run_entry strs = Some entries →
  ideal_from sub cur (map (ideal_convert sub) strs ++ ds)
  = ideal_from sub (cur ++ entries) ds.
Proof.
  induction strs as [|i strs IH]; intros entries cur ds Hm.
  - apply mapM_Some in Hm. inversion Hm; subst. by rewrite app_nil_r.
  - apply mapM_Some in Hm. inversion Hm as [|? e ? es He Hes]; subst.
    apply mapM_Some in Hes. simpl.
    rewrite (collect_from_entry _ _ e) by done.
    rewrite (IH es) by done. by rewrite <- app_assoc.
Qed.

Lemma built_run strs entries rest :
  strs ≠ [] →
  mapM run_entry strs = Some entries →
  (∀ i, head rest = Some i → run_entry i = None) →
  ideal_built sub (strs ++ rest) = DModel sub entries None :: ideal_built sub rest.
Proof.
  intros Hne Hm Hhead. unfold ideal_built. rewrite !collect_strs_from.
  rewrite map_app, (collect_from_run strs entries) by done. simpl.
  assert (entries ≠ []) as Hentries.
  { intros ->. apply length_mapM in Hm. by destruct strs. }
  destruct rest as [|i rest]; simpl.
  - rewrite !collect_from_nil. by destruct entries.
  - rewrite !collect_from_pass by (by apply Hhead). by destruct entries.
Qed.

Lemma Folded_built_unique its out : Folded sub its out → out = ideal_built sub its.
Proof.
  induction 1 as [|its ttl rest inner out _ IHinner _ IHout
                  |i rest out He Hnot _ IHout
                  |strs entries rest out Hne Hm Hhead _ IHout].
  - done.
  - rewrite built_pass by done. simpl. by rewrite IHinner, IHout.
  - rewrite built_pass by done. by rewrite convert_pass, IHout.
  - rewrite (built_run strs entries) by done. by rewrite IHout.
Qed.

Lemma built_open_run (its : list item) :
  Forall (λ i, ∀ its' ttl, i = INotes its' ttl → Folded sub its' (ideal_built sub its')) its →
  Folded sub its (ideal_built sub its) ∧
  ∀ cur, cur ≠ [] →
    ∃ strs entries rest out,
      its = strs ++ rest ∧
      mapM run_entry strs = Some entries ∧
      (∀ i, head rest = Some i → run_entry i = None) ∧
      Folded sub rest out ∧
      ideal_from sub cur (map (ideal_convert sub) its)
      = DModel sub (cur ++ entries) None :: out.
Proof.
  induction its as [|i its IH]; intros Hnested.
  - split; [constructor|]. intros cur Hcur.
    exists [], [], [], []. simpl. rewrite collect_from_nil, app_nil_r.
    repeat split; [done|constructor|by destruct cur].
  - apply Forall_cons in Hnested as [Hi Hits].
    destruct (IH Hits) as [IH1 IH2].
    destruct (run_entry i) as [e|] eqn:He.
    + assert (∀ cur, ∃ strs entries rest out,
                i :: its = strs ++ rest ∧
                mapM run_entry strs = Some entries ∧
                (∀ j, head rest = Some j → run_entry j = None) ∧
                Folded sub rest out ∧ strs ≠ [] ∧
                ideal_from sub cur (map (ideal_convert sub) (i :: its))
                = DModel sub (cur ++ entries) None :: out) as Hrun.
      { intros cur.
        destruct (IH2 (cur ++ [e])) as (strs & entries & rest & out & -> & Hm & Hhead & Hrest & Hc).
        { by destruct cur. }
        exists (i :: strs), (e :: entries), rest, out.
        repeat split; [|done..|].
        - apply mapM_Some. apply mapM_Some in Hm. by constructor.
        - simpl. rewrite (collect_from_entry _ _ e) by done.
          by rewrite Hc, <- app_assoc. }
      split.
      * destruct (Hrun []) as (strs & entries & rest & out & Heq & Hm & Hhead & Hrest & Hne & Hc).
        unfold ideal_built. rewrite collect_strs_from, Hc, Heq. simpl.
        by constructor.
      * intros cur _.
        destruct (Hrun cur) as (strs & entries & rest & out & Heq & Hm & Hhead & Hrest & Hne & Hc).
        by exists strs, entries, rest, out.
    + assert (Folded sub (i :: its) (ideal_convert sub i :: ideal_built sub its)) as Hfold.
      { destruct i as [s|xs|its' ttl|latex|href dt|o]; try done.
        - by apply Folded_other.
        - apply Folded_notes; [by eapply Hi|done].
        - by apply Folded_other. }
      split; [by rewrite built_pass|].
      intros cur Hcur. exists [], [], (i :: its), (ideal_convert sub i :: ideal_built sub its).
      simpl. rewrite collect_from_pass, app_nil_r by done.
      repeat split; [by intros ? [= <-]|done|by destruct cur].
Qed.

Lemma Folded_built (its : list item) : Folded sub its (ideal_built sub its).
Proof.
  assert (∀ i its' ttl, i = INotes its' ttl → Folded sub its' (ideal_built sub its')) as Hall.
  { intros i.
    induction i as [s|xs IH|its0 ttl0 IH|latex|href dt|o] using item_nested_ind;
      intros its' ttl [=]; subst.
    by apply built_open_run. }
  apply built_open_run. apply Forall_forall. intros i _. apply Hall.
Qed.

End FoldFacts.

(** ** The calls the folding makes *)

Section CallFacts.

Variable sub : model_class.

Lemma outcome_bind_Made {A B} (a : A) (k : A → outcome B) : (Made a ≫= k) = k a.
Proof. reflexivity. Qed.

Lemma outcome_bind_Fails {A B} (e : model_exn) (k : A → outcome B) :
  (Fails e ≫= k) = Fails e.
Proof. reflexivity. Qed.

Lemma fold_outcome_cons {A B} (f : A → B → outcome A) x l a :
  fold_outcome f (x :: l) a = (a' ← f a x; fold_outcome f l a').
Proof. reflexivity. Qed.

Lemma has_run_cons (d : doc) (docs : list doc) :
  has_run (d :: docs)
  = (match str_kind_of d with KOther => false | _ => true end) || has_run docs.
Proof. reflexivity. Qed.

Lemma flush_outcome (fi cur : list doc) :
  flush sub (mk_collector fi cur)
  = if open_run (mk_collector fi cur) && negb (accepts_plain sub)
    then Fails TypeError
    else Made (ideal_flush sub (mk_collector fi cur)).
Proof.
  unfold flush, ideal_flush, call_plain, open_run. simpl.
  destruct cur; [done|]. by destruct (accepts_plain sub).
Qed.

Lemma collect_step_eq (st : collector) (d : doc) :
  collect_step sub st d
  = match str_kind_of d with
    | KStr => Made (mk_collector (final_items st) (current_str_items st ++ [d]))
    | KSerializable out =>
        Made (mk_collector (final_items st) (current_str_items st ++ [DLatex out]))
    | KOther =>
        st' ← flush sub st;
        Made (mk_collector (final_items st' ++ [d]) (current_str_items st'))
    end.
Proof. reflexivity. Qed.

Lemma ideal_step_eq (st : collector) (d : doc) :
  ideal_step sub st d
  = match str_kind_of d with
    | KStr => mk_collector (final_items st) (current_str_items st ++ [d])
    | KSerializable out =>
        mk_collector (final_items st) (current_str_items st ++ [DLatex out])
    | KOther =>
        mk_collector (final_items (ideal_flush sub st) ++ [d])
          (current_str_items (ideal_flush sub st))
    end.
Proof. reflexivity. Qed.

Lemma collect_loop_outcome (docs : list doc) : ∀ st,
  (st' ← fold_outcome (collect_step sub) docs st;
   st'' ← flush sub st';
   Made (final_items st''))
  = if (open_run st || has_run docs) && negb (accepts_plain sub)
    then Fails TypeError
    else Made (final_items (ideal_flush sub (fold_left (ideal_step sub) docs st))).
Proof.
  induction docs as [|d docs IH]; intros [fi cur].
  - change (fold_outcome (collect_step sub) [] (mk_collector fi cur))
      with (Made (mk_collector fi cur)).
    rewrite outcome_bind_Made, flush_outcome, orb_false_r.
    by destruct (open_run (mk_collector fi cur) && negb (accepts_plain sub)).
  - rewrite fold_outcome_cons, has_run_cons.
    change (fold_left (ideal_step sub) (d :: docs) (mk_collector fi cur))
      with (fold_left (ideal_step sub) docs (ideal_step sub (mk_collector fi cur) d)).
    rewrite (collect_step_eq (mk_collector fi cur) d),
      (ideal_step_eq (mk_collector fi cur) d).
    destruct (str_kind_of d) eqn:Hk.
    + rewrite outcome_bind_Made, IH.
      replace (open_run _) with true by (unfold open_run; simpl; by destruct cur).
      by rewrite orb_true_r.
    + rewrite outcome_bind_Made, IH.
      replace (open_run _) with true by (unfold open_run; simpl; by destruct cur).
      by rewrite orb_true_r.
    + rewrite flush_outcome.
      destruct (open_run (mk_collector fi cur)) eqn:Hopen,
        (accepts_plain sub) eqn:Hp; simpl.
      * rewrite ?outcome_bind_Made, IH. simpl. by rewrite !andb_false_r.
      * done.
      * rewrite ?outcome_bind_Made, IH. simpl. by rewrite !andb_false_r.
      * rewrite ?outcome_bind_Made, IH.
        replace (open_run _) with false; [by rewrite ?andb_true_r|].
        unfold ideal_flush, open_run in *. simpl in *. by destruct cur.
Qed.

Lemma collect_strs_outcome (docs : list doc) :
  collect_strs sub docs
  = if has_run docs && negb (accepts_plain sub) then Fails TypeError
    else Made (ideal_collect sub docs).
Proof. apply (collect_loop_outcome docs (mk_collector [] [])). Qed.

Lemma mapM_outcome_if {A B} (f : A → outcome B) (ok : A → bool) (g : A → B)
    (l : list A) :
  Forall (λ x, f x = if ok x then Made (g x) else Fails TypeError) l →
  mapM f l = if forallb ok l then Made (map g l) else Fails TypeError.
Proof.
  induction 1 as [|x l Hx _ IH]; [done|].
  change (mapM f (x :: l)) with (y ← f x; ys ← mapM f l; mret (y :: ys)).
  rewrite Hx, IH. simpl. destruct (ok x); [|done]. simpl.
  by destruct (forallb ok l).
Qed.

Lemma has_run_ideal_convert (its : list item) :
  has_run (map (ideal_convert sub) its) = has_run (map DItem its).
Proof.
  induction its as [|i its IH]; [done|].
  simpl. rewrite IH. by destruct i.
Qed.

Lemma convert_outcome (i : item) :
  convert sub i
  = if callable sub i then Made (ideal_convert sub i) else Fails TypeError.
Proof.
  induction i as [s|xs IH|its ttl IH|latex|href dt|o] using item_nested_ind;
    try done.
  cbn [convert callable ideal_convert].
  rewrite (mapM_outcome_if _ (callable sub) (ideal_convert sub) its IH).
  destruct (forallb (callable sub) its); [|done]. simpl.
  rewrite collect_strs_outcome, has_run_ideal_convert.
  unfold call_titled.
  destruct (has_run (map DItem its)), (accepts_plain sub), (accepts_title sub);
    done.
Qed.

Lemma built_outcome (its : list item) :
  (items ← mapM (convert sub) its; collect_strs sub items)
  = if callable_items sub its then Made (ideal_built sub its)
    else Fails TypeError.
Proof.
  unfold callable_items, ideal_built.
  rewrite (mapM_outcome_if _ (callable sub) (ideal_convert sub) its).
  - destruct (forallb (callable sub) its); [|done]. simpl.
    rewrite collect_strs_outcome, has_run_ideal_convert.
    by destruct (has_run (map DItem its)), (accepts_plain sub).
  - apply Forall_forall. intros i _. apply convert_outcome.
Qed.

End CallFacts.

Lemma to_models_outcome (top_model : option model_class)
    (sub_model : model_class) (n : LectureNotes.t) :
  LectureNotes.to_models top_model sub_model n
  = if callable_items sub_model (LectureNotes.items n)
    then wrap_top top_model (ideal_built sub_model (LectureNotes.items n))
           (LectureNotes.title n)
    else Fails TypeError.
Proof.
  unfold LectureNotes.to_models.
  pose proof (built_outcome sub_model (LectureNotes.items n)) as Hb.
  destruct (mapM (convert sub_model) (LectureNotes.items n)) as [items|e];
    simpl in *.
  - rewrite Hb. by destruct (callable_items sub_model (LectureNotes.items n)).
  - destruct (callable_items sub_model (LectureNotes.items n)); by simplify_eq.
Qed.

Lemma callable_nested_defaults (its : list item) :
  (∃ its' ttl, INotes its' ttl ∈ its) →
  callable_items PlUnorderedList its = false.
Proof.
  intros (its' & ttl & Hin). unfold callable_items.
  apply andb_false_iff. left. apply not_true_is_false. intros Hall.
  rewrite forallb_forall in Hall.
  specialize (Hall _ (proj1 (list_elem_of_In _ _) Hin)).
  cbn [callable accepts_title] in Hall. by rewrite andb_false_r in Hall.
Qed.

(** C2.  [to_models] is written to fold the notes into a document tree,
    and does so whenever the classes take the calls it makes: the list it
    builds is then the one the description fixes, and the only one (a
    nested [LectureNotes] becomes [sub_model(...)] of its own folded
    items, with its title; each longest stretch of strings and of objects
    exposing [to_pyexlatex], these serialized, becomes one [sub_model]
    instance; anything else stays where it is), wrapped as
    [top_model(final_items, title=self.title)] or returned bare.  It
    returns exactly when every call is taken.  With the method's own
    default classes the call for a nested [LectureNotes],
    [pl.UnorderedList(final_items, title=...)], is not: notes holding a
    nested [LectureNotes] end in [TypeError]. *)
Theorem to_models_folds (top_model : option model_class)
    (sub_model : model_class) (n : LectureNotes.t) :
  (∀ d, LectureNotes.to_models top_model sub_model n = Made d →
     ∃ final,
       Folded sub_model (LectureNotes.items n) final ∧
       (∀ final', Folded sub_model (LectureNotes.items n) final' → final' = final) ∧
       d = match top_model with
           | Some cls => DModel cls final (Some (LectureNotes.title n))
           | None => DList final
           end) ∧
  ((∃ d, LectureNotes.to_models top_model sub_model n = Made d) ↔
   callable_items sub_model (LectureNotes.items n) = true ∧
   match top_model with Some cls => accepts_title cls | None => true end = true) ∧
  ((∃ its ttl, INotes its ttl ∈ LectureNotes.items n) →
   LectureNotes.to_models (Some PlSection) PlUnorderedList n = Fails TypeError).
Proof.
  split; [|split].
  - intros d. rewrite to_models_outcome.
    destruct (callable_items sub_model (LectureNotes.items n)); [|done].
    intros Hd. exists (ideal_built sub_model (LectureNotes.items n)).
    split; [apply Folded_built|]. split; [apply Folded_built_unique|].
    unfold wrap_top, call_titled in Hd.
    destruct top_model as [cls|]; [|by simplify_eq].
    destruct (accepts_title cls); by simplify_eq.
  - rewrite to_models_outcome. unfold wrap_top, call_titled.
    destruct (callable_items sub_model (LectureNotes.items n)).
    + destruct top_model as [cls|]; [destruct (accepts_title cls)|];
        split; try (intros [d Hd]; done); try (intros [_ ?]; done); eauto.
    + split; [by intros [d Hd]|by intros [? _]].
  - intros Hnested. rewrite to_models_outcome.
    by rewrite callable_nested_defaults.
Qed.

Lemma to_models_folds_witness :
  LectureNotes.to_models (Some PlSection) PlUnorderedList sample_notes
  = Fails TypeError.
Proof.
  apply (proj2 (proj2 (to_models_folds (Some PlSection) PlUnorderedList
                         sample_notes))).
  exists [IStr "inner"], "Details". simpl.
  apply elem_of_cons. right. apply elem_of_cons. right.
  apply elem_of_cons. by left.
Defined.

Example sample_notes_models :
  LectureNotes.to_models (Some PlSection) (PlClass "Frame" true true) sample_notes
  = Made
      (DModel PlSection
         [ DModel (PlClass "Frame" true true) [DItem (IStr "Use for loops")] None;
           DItem (ISeq [IStr "Rate is"; IEquation "r = 0.05"]);
           DModel (PlClass "Frame" true true)
             [DModel (PlClass "Frame" true true) [DItem (IStr "inner")] None]
             (Some "Details");
           DModel (PlClass "Frame" true true) [DItem (IStr "Done")] None ]
         (Some "Lab")).
Proof. reflexivity. Qed.

(** * Further properties *)

(** ** Equality and links of resources *)

(** X1.  [==] on resources is an equivalence: every resource equals
    itself, the order of the operands does not matter, and equality
    carries over a middle resource. *)
Theorem resource_eq_equivalence :
  (∀ a, LectureResource.eq a (LectureResource.ObjResource a) = true) ∧
  (∀ a b, LectureResource.eq a (LectureResource.ObjResource b)
          = LectureResource.eq b (LectureResource.ObjResource a)) ∧
  (∀ a b c,
      LectureResource.eq a (LectureResource.ObjResource b) = true →
      LectureResource.eq b (LectureResource.ObjResource c) = true →
      LectureResource.eq a (LectureResource.ObjResource c) = true).
Proof.
  split; [apply resource_eq_refl|split].
  - intros a b. apply eq_true_iff_eq. rewrite !resource_eq_fields.
    intuition congruence.
  - intros a b c. rewrite !resource_eq_fields. intuition congruence.
Qed.

Lemma resource_eq_url (a b : LectureResource.t) :
  LectureResource.eq a (LectureResource.ObjResource b) = true →
  LectureResource.url a = LectureResource.url b.
Proof.
  intros (_ & Hs & He)%resource_eq_fields.
  unfold LectureResource.url. by rewrite Hs, He.
Qed.

Lemma resource_raises_no_link strftime (r : LectureResource.t) :
  LectureResource.to_rst strftime r = Raise ValueError ↔ no_link r.
Proof.
  unfold LectureResource.to_rst, no_link.
  destruct (LectureResource.static_url r), (LectureResource.external_url r);
    intuition congruence.
Qed.

Lemma no_link_url (r : LectureResource.t) :
  no_link r ↔ LectureResource.url r = None.
Proof.
  unfold LectureResource.url, no_link.
  destruct (LectureResource.static_url r), (LectureResource.external_url r);
    intuition congruence.
Qed.

Lemma resource_eq_no_link (a b : LectureResource.t) :
  LectureResource.eq a (LectureResource.ObjResource b) = true →
  no_link a → no_link b.
Proof.
  intros Heq. rewrite !no_link_url. by rewrite (resource_eq_url a b Heq).
Qed.

(** X2.  Resources that compare equal point to the same place: they have
    the same [url], so one of them fails to render exactly when the other
    does, whatever their [index] and [updated] fields are. *)
Theorem equal_resources_same_link (strftime : datetime → string → string)
    (a b : LectureResource.t) :
  LectureResource.eq a (LectureResource.ObjResource b) = true →
  LectureResource.url a = LectureResource.url b ∧
  (LectureResource.to_rst strftime a = Raise ValueError ↔
   LectureResource.to_rst strftime b = Raise ValueError).
Proof.
  intros Heq. split; [by apply resource_eq_url|].
  rewrite !resource_raises_no_link, !no_link_url.
  by rewrite (resource_eq_url a b Heq).
Qed.

Lemma equal_resources_same_link_witness :
  LectureResource.url sample_slides
  = LectureResource.url
      (LectureResource.mk "Slides" (Some "generated/pdfs/S2.pdf") None
         (Some (mk_datetime 2020 1 2 3 4 5)) None "%c") ∧
  (LectureResource.to_rst (λ _ _, "") sample_slides = Raise ValueError ↔
   LectureResource.to_rst (λ _ _, "")
     (LectureResource.mk "Slides" (Some "generated/pdfs/S2.pdf") None
        (Some (mk_datetime 2020 1 2 3 4 5)) None "%c") = Raise ValueError).
Proof. apply equal_resources_same_link. reflexivity. Defined.

(** X3.  [to_rst] of a resource raises [ValueError] exactly when its
    [url] is [None]; when the [url] is set, the text returned carries the
    display name and that [url] as the link target. *)
Theorem resource_renders_iff_url (strftime : datetime → string → string)
    (r : LectureResource.t) :
  (LectureResource.to_rst strftime r = Raise ValueError ↔
   LectureResource.url r = None) ∧
  (∀ u, LectureResource.url r = Some u →
     ∃ pre post,
       LectureResource.to_rst strftime r
       = Ok (pre +:+ LectureResource.display_name strftime r
                 +:+ " <" +:+ u +:+ ">`" +:+ post)).
Proof.
  split.
  - by rewrite resource_raises_no_link, no_link_url.
  - intros u. unfold LectureResource.to_rst, LectureResource._to_download_rst,
      LectureResource._to_external_link_rst, LectureResource.url.
    destruct (LectureResource.static_url r) as [s|].
    + intros [= <-]. by exists (nl +:+ "- :download:`"), (nl +:+ "        ").
    + destruct (LectureResource.external_url r) as [e|]; [|done].
      intros [= <-]. by exists (nl +:+ "- `"), ("_" +:+ nl +:+ "        ").
Qed.

(** ** The resources of a group *)

Section GroupMore.

Implicit Types (r : LectureResource.t) (rs acc : list LectureResource.t).

Lemma fresh_tail_intro added : ∀ acc,
  (∀ pre r post, added = pre ++ r :: post →
     LectureResource.contains r (acc ++ pre) = false) →
  fresh_tail acc added.
Proof.
  induction added as [|r added IH]; intros acc H; constructor.
  - specialize (H [] r added eq_refl). by rewrite app_nil_r in H.
  - apply IH. intros pre r' post ->.
    specialize (H (r :: pre) r' post eq_refl). by rewrite <- app_assoc.
Qed.

Lemma fresh_tail_app acc a b :
  fresh_tail acc a → fresh_tail (acc ++ a) b → fresh_tail acc (a ++ b).
Proof.
  induction 1 as [acc|acc r a Hnew _ IH]; intros Hb; simpl.
  - by rewrite app_nil_r in Hb.
  - constructor; [done|]. apply IH. by rewrite <- app_assoc.
Qed.

Lemma add_resources_known rs : ∀ acc,
  (∀ r, r ∈ rs → LectureResource.contains r acc = true) →
  fold_left LectureGroup.add_resource rs acc = acc.
Proof.
  induction rs as [|r rs IH]; intros acc Hall; simpl; [done|].
  unfold LectureGroup.add_resource at 2.
  rewrite (Hall r) by (apply elem_of_cons; by left).
  apply IH. intros r' Hr'. apply Hall, elem_of_cons. by right.
Qed.

End GroupMore.

(** X4.  When no global resource equals an earlier one, the whole list
    [resources] returns is free of repetitions: no element equals one
    before it. *)
Theorem resources_pairwise_distinct (g : LectureGroup.t) :
  pairwise_distinct (LectureGroup.global_resources g) →
  pairwise_distinct (LectureGroup.resources g).
Proof.
  intros Hglobal. unfold LectureGroup.resources. rewrite add_lectures_scan.
  destruct (add_resources_scan
              (concat (map LectureGroup.lecture_resources (LectureGroup.lectures g)))
              (LectureGroup.global_resources g))
    as (added & -> & _ & Hfresh & _).
  assert (fresh_tail [] (LectureGroup.global_resources g ++ added)) as Hall.
  { apply fresh_tail_app; [|done]. by apply fresh_tail_intro. }
  intros pre r post Heq. by apply (fresh_tail_split _ _ Hall pre r post).
Qed.

Lemma resources_pairwise_distinct_witness :
  pairwise_distinct
    (LectureGroup.resources
       (LectureGroup.mk "Intro" "First steps"
          [lecture_one; lecture_two; lecture_three]
          (LectureGroup.OrderInt 1) [sample_slides])).
Proof.
  apply resources_pairwise_distinct. simpl.
  intros [|p [|q pre]] r post [=]; subst. reflexivity.
Defined.

(** X5.  When every resource of every lecture is equal to some global
    resource, [resources] returns the global resources and nothing else;
    this covers a group without lectures and lectures without resources. *)
Theorem resources_all_known (g : LectureGroup.t) :
  (∀ r, r ∈ LectureGroup.scanned g →
     LectureResource.contains r (LectureGroup.global_resources g) = true) →
  LectureGroup.resources g = LectureGroup.global_resources g.
Proof.
  intros Hall. unfold LectureGroup.resources. rewrite add_lectures_scan.
  by apply add_resources_known.
Qed.

Lemma resources_all_known_witness :
  LectureGroup.resources
    (LectureGroup.mk "Intro" "First steps" [lecture_two; lecture_three]
       (LectureGroup.OrderInt 1) [sample_site])
  = [sample_site].
Proof.
  apply (resources_all_known
           (LectureGroup.mk "Intro" "First steps" [lecture_two; lecture_three]
              (LectureGroup.OrderInt 1) [sample_site])).
  intros r Hr. apply list_elem_of_In in Hr. simpl in Hr.
  destruct Hr as [<-|[]]. reflexivity.
Defined.

(** X6.  Collecting is stable: a group whose global resources are the
    list [resources] gave for it, with the same lectures, gets that same
    list again. *)
Theorem resources_idempotent (g : LectureGroup.t) :
  LectureGroup.resources
    (LectureGroup.mk (LectureGroup.title g) (LectureGroup.description g)
       (LectureGroup.lectures g) (LectureGroup.order g)
       (LectureGroup.resources g))
  = LectureGroup.resources g.
Proof.
  unfold LectureGroup.resources at 1. simpl. rewrite add_lectures_scan.
  apply add_resources_known.
  unfold LectureGroup.resources. rewrite add_lectures_scan.
  destruct (add_resources_scan
              (concat (map LectureGroup.lecture_resources (LectureGroup.lectures g)))
              (LectureGroup.global_resources g))
    as (added & -> & _ & _ & Hall).
  exact Hall.
Qed.

(** X7.  [resources] returns at least the global resources and at most
    one entry more for each resource the lectures hold. *)
Theorem resources_length (g : LectureGroup.t) :
  length (LectureGroup.global_resources g) ≤ length (LectureGroup.resources g) ∧
  length (LectureGroup.resources g)
  ≤ length (LectureGroup.global_resources g) + length (LectureGroup.scanned g).
Proof.
  unfold LectureGroup.resources, LectureGroup.scanned. rewrite add_lectures_scan.
  destruct (add_resources_scan
              (concat (map LectureGroup.lecture_resources (LectureGroup.lectures g)))
              (LectureGroup.global_resources g))
    as (added & -> & Hsub & _ & _).
  apply sublist_length in Hsub. rewrite length_app. lia.
Qed.

(** X8.  [lectures_for_week] returns the empty list exactly when no
    lecture of the group covers the week asked for. *)
Theorem lectures_for_week_empty (g : LectureGroup.t) (week_num : Z) :
  LectureGroup.lectures_for_week g week_num = [] ↔
  ∀ l, l ∈ LectureGroup.lectures g → Lecture.week_covered l ≠ week_num.
Proof.
  unfold LectureGroup.lectures_for_week. rewrite collect_week_filter. simpl.
  split.
  - intros Hnil l Hin Hweek. by apply (filter_nil_not_elem_of _ _ l Hnil).
  - intros Hnone.
    destruct (filter _ (LectureGroup.lectures g)) as [|l ls] eqn:Hf; [done|].
    assert (l ∈ filter (λ l, Lecture.week_covered l = week_num)
                  (LectureGroup.lectures g)) as Hin.
    { rewrite Hf. apply elem_of_cons. by left. }
    apply list_elem_of_filter in Hin as [Hweek Hin]. by destruct (Hnone l Hin).
Qed.

(** ** Rendering lectures and groups *)

Section RenderFacts.

Variable strftime : datetime → string → string.
Variable header_rst : string → Z → string.

Lemma bind_Ok_raises {A B} (r : result A) (h : A → B) :
  (x ← r; Ok (h x)) = Raise ValueError ↔ r = Raise ValueError.
Proof. destruct r as [a|[]]; simpl; split; done. Qed.

Lemma mapM_raises_exists {A B} (f : A → result B) (l : list A) :
  mapM f l = Raise ValueError ↔ ∃ x, x ∈ l ∧ f x = Raise ValueError.
Proof. by rewrite mapM_result_Raise, Exists_exists. Qed.

Lemma notes_raise (n : LectureNotes.t) :
  LectureNotes.to_rst n = Raise ValueError ↔
  existsb unrenderable (LectureNotes.items n) = true.
Proof.
  unfold LectureNotes.to_rst.
  rewrite bind_Ok_raises, mapM_result_Raise, existsb_Exists.
  rewrite !Exists_exists. by setoid_rewrite bullet_content_raises.
Qed.

Lemma lecture_notes_raise (l : Lecture.t) :
  Lecture._notes_rst header_rst l = Raise ValueError ↔ bad_notes l.
Proof.
  unfold Lecture._notes_rst, bad_notes.
  destruct (Lecture.notes l) as [n|].
  - rewrite bind_Ok_raises, notes_raise. split; [by eauto|].
    by intros (n' & [= <-] & H).
  - split; [done|]. by intros (n' & [=] & _).
Qed.

Lemma resources_raise (rs : list LectureResource.t) :
  mapM (LectureResource.to_rst strftime) rs = Raise ValueError ↔
  ∃ r, r ∈ rs ∧ no_link r.
Proof.
  rewrite mapM_raises_exists. by setoid_rewrite resource_raises_no_link.
Qed.

Lemma lecture_resources_raise (l : Lecture.t) :
  Lecture._resources_rst strftime header_rst l = Raise ValueError ↔
  ∃ r, r ∈ LectureGroup.lecture_resources l ∧ no_link r.
Proof.
  unfold Lecture._resources_rst, LectureGroup.lecture_resources.
  destruct (Lecture.resources l) as [[|r rs]|]; simpl default.
  - split; [done|]. intros (r & Hin & _). by apply elem_of_nil in Hin.
  - by rewrite bind_Ok_raises, resources_raise.
  - split; [done|]. intros (r & Hin & _). by apply elem_of_nil in Hin.
Qed.

Lemma lecture_raise (l : Lecture.t) :
  Lecture.to_rst strftime header_rst l = Raise ValueError ↔
  bad_notes l ∨ ∃ r, r ∈ LectureGroup.lecture_resources l ∧ no_link r.
Proof.
  rewrite <- lecture_notes_raise, <- lecture_resources_raise.
  unfold Lecture.to_rst.
  destruct (Lecture._notes_rst header_rst l) as [n|[]]; simpl.
  - rewrite bind_Ok_raises. split; [by right|]. by intros [?|?].
  - split; [by left|done].
Qed.

Lemma group_block_raise (g : LectureGroup.t) :
  LectureGroup._resources_block strftime header_rst g = Raise ValueError ↔
  ∃ r, r ∈ LectureGroup.resources g ∧ no_link r.
Proof.
  unfold LectureGroup._resources_block.
  destruct (LectureGroup.resources g) as [|r rs].
  - split; [done|]. intros (r & Hin & _). by apply elem_of_nil in Hin.
  - by rewrite bind_Ok_raises, resources_raise.
Qed.

Lemma scanned_elem (g : LectureGroup.t) (r : LectureResource.t) :
  r ∈ LectureGroup.scanned g ↔
  ∃ l, l ∈ LectureGroup.lectures g ∧ r ∈ LectureGroup.lecture_resources l.
Proof.
  unfold LectureGroup.scanned. rewrite list_elem_of_In, in_concat. split.
  - intros (rs & (l & <- & Hl)%in_map_iff & Hr).
    exists l. by rewrite !list_elem_of_In.
  - intros (l & Hl & Hr). exists (LectureGroup.lecture_resources l).
    apply list_elem_of_In in Hl. apply list_elem_of_In in Hr.
    split; [|done]. apply in_map_iff. eauto.
Qed.

Lemma group_resources_no_link (g : LectureGroup.t) :
  (∃ r, r ∈ LectureGroup.resources g ∧ no_link r) ↔
  (∃ r, r ∈ LectureGroup.global_resources g ++ LectureGroup.scanned g ∧ no_link r).
Proof.
  unfold LectureGroup.resources, LectureGroup.scanned.
  rewrite add_lectures_scan.
  destruct (add_resources_scan
              (concat (map LectureGroup.lecture_resources (LectureGroup.lectures g)))
              (LectureGroup.global_resources g))
    as (added & -> & Hsub & _ & Hall).
  split; intros (r & Hin & Hno).
  - exists r. split; [|done].
    apply elem_of_app in Hin as [Hin|Hin]; apply elem_of_app; [by left|right].
    by eapply elem_of_sublist.
  - apply elem_of_app in Hin as [Hin|Hin].
    + exists r. split; [|done]. apply elem_of_app. by left.
    + specialize (Hall r Hin). unfold LectureResource.contains in Hall.
      apply existsb_exists in Hall as (r' & Hr' & Heq).
      exists r'. split; [by apply list_elem_of_In|].
      by apply (resource_eq_no_link r r').
Qed.

End RenderFacts.

(** X9.  [Lecture.to_rst] raises [ValueError] exactly when the lecture
    has notes holding an item that cannot be rendered, or a resource with
    neither link; a lecture without notes and without resources always
    renders. *)
Theorem lecture_to_rst_raises (strftime : datetime → string → string)
    (header_rst : string → Z → string) (l : Lecture.t) :
  Lecture.to_rst strftime header_rst l = Raise ValueError ↔
  bad_notes l ∨ ∃ r, r ∈ LectureGroup.lecture_resources l ∧ no_link r.
Proof.
  rewrite <- (lecture_notes_raise header_rst),
    <- (lecture_resources_raise strftime header_rst).
  unfold Lecture.to_rst.
  destruct (Lecture._notes_rst header_rst l) as [n|[]]; simpl.
  - rewrite bind_Ok_raises. split; [by right|]. by intros [?|?].
  - split; [by left|done].
Qed.

(** X10.  [LectureGroup.to_rst] raises [ValueError] exactly when some
    resource of the group, global or held by a lecture, has neither link,
    or some lecture has notes that cannot be rendered.  Removing repeated
    resources never hides such a resource, because resources that compare
    equal have the same links. *)
Theorem group_to_rst_raises (strftime : datetime → string → string)
    (header_rst : string → Z → string) (g : LectureGroup.t) :
  LectureGroup.to_rst strftime header_rst g = Raise ValueError ↔
  (∃ r, r ∈ LectureGroup.global_resources g ++ LectureGroup.scanned g ∧ no_link r) ∨
  (∃ l, l ∈ LectureGroup.lectures g ∧ bad_notes l).
Proof.
  rewrite <- group_resources_no_link, <- group_block_raise.
  unfold LectureGroup.to_rst.
  destruct (LectureGroup._resources_block strftime header_rst g) as [block|[]] eqn:Hblock;
    simpl; [|split; [by left|done]].
  rewrite bind_Ok_raises, mapM_raises_exists.
  split.
  - intros (l & Hl & [Hbad|(r & Hr & Hno)]%lecture_raise); [right; eauto|].
    exfalso.
    assert (LectureGroup._resources_block strftime header_rst g = Raise ValueError)
      as Hr'; [|congruence].
    apply group_block_raise, group_resources_no_link.
    exists r. split; [|done]. apply elem_of_app. right.
    apply scanned_elem. eauto.
  - intros [?|(l & Hl & Hbad)]; [congruence|].
    exists l. split; [done|]. apply lecture_raise. by left.
Qed.

Lemma mapM_outcome_cons {A B} (f : A → outcome B) x l :
  mapM f (x :: l) = (y ← f x; ys ← mapM f l; Made (y :: ys)).
Proof. reflexivity. Qed.

Lemma mapM_outcome_Made {A B} (f : A → outcome B) (l : list A) : ∀ ys,
  mapM f l = Made ys ↔ Forall2 (λ x y, f x = Made y) l ys.
Proof.
  induction l as [|x l IH]; intros ys.
  - split; [intros [= <-]; constructor|]. intros H. by inversion H.
  - rewrite mapM_outcome_cons. split.
    + destruct (f x) as [y|e] eqn:Hx; simpl; [|done].
      destruct (mapM f l) as [ys'|e] eqn:Hl; simpl; [|done].
      intros [= <-]. constructor; [done|]. by apply IH.
    + intros H. inversion H as [|? y ? ys' Hx Hall]; subst.
      apply IH in Hall. by rewrite Hx, Hall.
Qed.

Lemma mapM_outcome_Fails {A B} (f : A → outcome B) (l : list A) (e : model_exn) :
  mapM f l = Fails e ↔
  ∃ pre x post, l = pre ++ x :: post ∧ f x = Fails e ∧
                Forall (λ x', ∃ y, f x' = Made y) pre.
Proof.
  induction l as [|x l IH].
  - split; [done|]. intros (pre & x & post & Hl & _). by destruct pre.
  - rewrite mapM_outcome_cons. destruct (f x) as [y|e'] eqn:Hx; simpl.
    + destruct (mapM f l) as [ys|e''] eqn:Hl; simpl.
      * split; [done|]. intros (pre & x' & post & Heq & Hf & Hpre).
        destruct pre as [|p pre]; simplify_eq/=; [congruence|].
        apply Forall_cons in Hpre as [_ Hpre].
        assert (Made ys = Fails e) as Habs; [|done].
        apply IH. eauto 6.
      * split.
        -- intros [= ->]. destruct (proj1 IH eq_refl) as (pre & x' & post & -> & Hf & Hpre).
           exists (x :: pre), x', post. split; [done|]. split; [done|].
           constructor; eauto.
        -- intros (pre & x' & post & Heq & Hf & Hpre).
           destruct pre as [|p pre]; simplify_eq/=; [congruence|].
           apply Forall_cons in Hpre as [_ Hpre].
           apply IH. eauto 6.
    + split.
      * intros [= ->]. exists [], x, l. by repeat split.
      * intros (pre & x' & post & Heq & Hf & Hpre).
        destruct pre as [|p pre]; simplify_eq/=; [congruence|].
        apply Forall_cons in Hpre as [[y Hy] _]. congruence.
Qed.

Lemma notes_to_models_no_attribute_error top sub (n : LectureNotes.t) :
  LectureNotes.to_models top sub n ≠ Fails AttributeError.
Proof.
  rewrite to_models_outcome. unfold wrap_top, call_titled.
  destruct (callable_items sub (LectureNotes.items n)); [|done].
  destruct top as [cls|]; [|done]. by destruct (accepts_title cls).
Qed.

(** X11.  [LectureGroup.to_models] returns one model per lecture, in
    order, exactly when every lecture has notes and [to_models] of each
    returns, each model being that of the lecture's notes.  It ends in
    [AttributeError] exactly when the first lecture it cannot convert is
    one whose [notes] is [None]. *)
Theorem group_to_models_notes (top_model : option model_class)
    (sub_model : model_class) (g : LectureGroup.t) :
  (∀ models,
     LectureGroup.to_models top_model sub_model g = Made models ↔
     Forall2 (λ l m, ∃ n, Lecture.notes l = Some n ∧
                          LectureNotes.to_models top_model sub_model n = Made m)
       (LectureGroup.lectures g) models) ∧
  (LectureGroup.to_models top_model sub_model g = Fails AttributeError ↔
   ∃ pre l post,
     LectureGroup.lectures g = pre ++ l :: post ∧
     Lecture.notes l = None ∧
     Forall (λ l', ∃ n m, Lecture.notes l' = Some n ∧
                          LectureNotes.to_models top_model sub_model n = Made m)
       pre).
Proof.
  unfold LectureGroup.to_models. split.
  - intros models. rewrite mapM_outcome_Made.
    split; intros H; eapply Forall2_impl; try exact H; simpl.
    + intros l m Hl. destruct (Lecture.notes l) as [n|]; [eauto|done].
    + intros l m (n & -> & Hm). done.
  - rewrite mapM_outcome_Fails. split.
    + intros (pre & l & post & Heq & Hl & Hpre).
      exists pre, l, post. split; [done|]. split.
      * destruct (Lecture.notes l) as [n|]; [|done].
        by destruct (notes_to_models_no_attribute_error top_model sub_model n).
      * eapply Forall_impl; [exact Hpre|]. simpl. intros l' [m Hm].
        destruct (Lecture.notes l') as [n|]; [eauto|done].
    + intros (pre & l & post & Heq & Hl & Hpre).
      exists pre, l, post. split; [done|]. split; [by rewrite Hl|].
      eapply Forall_impl; [exact Hpre|]. simpl.
      intros l' (n & m & -> & Hm). eauto.
Qed.

(** ** Resources made from content metadata *)

(** X12.  [from_metadata] gives up, with [NotImplementedError], exactly
    when no url is passed and the metadata is not of generated content.
    Otherwise the resource it makes has a static url (the one passed, when
    one is passed) and no external url, so its [to_rst] never raises and
    gives the download directive under ["/_static/"]. *)
Theorem from_metadata_renders (strftime : datetime → string → string)
    (md : LectureResource.ContentMetadata) (url : option string) :
  (LectureResource.from_metadata md url = None ↔
   url = None ∧ LectureResource.generated md = false) ∧
  (∀ r, LectureResource.from_metadata md url = Some r →
     ∃ u, LectureResource.static_url r = Some u ∧
          (∀ given, url = Some given → u = given) ∧
          LectureResource.external_url r = None ∧
          LectureResource.url r = Some ("/_static/" +:+ u) ∧
          LectureResource.to_rst strftime r
          = Ok (LectureResource._to_download_rst strftime r)).
Proof.
  unfold LectureResource.from_metadata. split.
  - destruct url as [given|]; [split; [done|by intros [? _]]|].
    destruct (LectureResource.generated md); split; try done.
    by intros [_ ?].
  - intros r Hr.
    destruct url as [given|]; simplify_eq.
    + exists given. repeat split; try done. by intros ? [= <-].
    + destruct (LectureResource.generated md); simplify_eq.
      eexists. repeat split; done.
Qed.

(** ** The groups of the course *)

(** X13.  [get_lecture_groups] always starts with the six lectures, in
    their fixed order.  The lab exercises follow when [include_labs] is
    set; the projects follow the lectures when either flag is set, so with
    [include_labs] set the projects are there even when
    [include_projects] is off. *)
Theorem lecture_groups_flags (G : Type) (l1 l2 l3 l4 l5 l6 projects labs : G)
    (include_labs include_projects : bool) :
  let groups :=
    get_lecture_groups G l1 l2 l3 l4 l5 l6 projects labs
      include_labs include_projects in
  take 6 groups = [l1; l2; l3; l4; l5; l6] ∧
  drop 6 groups
  = (if include_labs || include_projects then [projects] else [])
    ++ (if include_labs then [labs] else []).
Proof. destruct include_labs, include_projects; by split. Qed.

(** ** Indexing and iteration *)

Lemma py_index_nat {A} (l : list A) (k : nat) : py_index l (Z.of_nat k) = l !! k.
Proof.
  unfold py_index. rewrite (proj2 (Z.leb_le 0 (Z.of_nat k))) by lia.
  by rewrite Nat2Z.id.
Qed.

Lemma iterate_from {A} (l : list A) (fuel : nat) : ∀ k,
  length l - k < fuel →
  iterate fuel (py_index l) (Z.of_nat k) = Some (drop k l).
Proof.
  induction fuel as [|fuel IH]; intros k Hlt; [lia|].
  simpl. rewrite py_index_nat.
  destruct (l !! k) as [x|] eqn:Hk.
  - replace (Z.of_nat k + 1)%Z with (Z.of_nat (S k)) by lia.
    apply lookup_lt_Some in Hk as Hlen.
    rewrite IH by lia. simpl. f_equal. symmetry. by apply drop_S.
  - apply lookup_ge_None in Hk. by rewrite drop_ge.
Qed.

(** X14.  Looping over a [LectureNotes] or a [LectureGroup], which only
    define [__getitem__], visits the items, or the lectures, from the
    first to the last and then stops: with a budget of requests above the
    length, the loop ends and yields exactly that sequence. *)
Theorem iterate_visits_all (n : LectureNotes.t) (g : LectureGroup.t) (fuel : nat) :
  (length (LectureNotes.items n) < fuel →
   iterate fuel (LectureNotes.getitem n) 0 = Some (LectureNotes.items n)) ∧
  (length (LectureGroup.lectures g) < fuel →
   iterate fuel (LectureGroup.getitem g) 0 = Some (LectureGroup.lectures g)).
Proof.
  split; intros Hlt.
  - apply (iterate_from (LectureNotes.items n) fuel 0). lia.
  - apply (iterate_from (LectureGroup.lectures g) fuel 0). lia.
Qed.

Lemma iterate_visits_all_witness :
  iterate 5 (LectureNotes.getitem sample_notes) 0
  = Some (LectureNotes.items sample_notes).
Proof.
  apply (proj1 (iterate_visits_all sample_notes sample_group 5)).
  simpl. lia.
Defined.

(** ** Links *)

Lemma escape_well_escaped (s : string) : ∀ prev,
  well_escaped prev (Link.escape_underscores s) = true.
Proof.
  induction s as [|c s IH]; intros prev; [done|].
  simpl. destruct (Ascii.eqb c "_") eqn:Hc; simpl.
  - by rewrite IH.
  - by rewrite Hc, IH.
Qed.

(** X16.  Escaping the display text of a link puts a backslash before
    every underscore and changes nothing else: in the text that comes out
    every underscore follows a backslash, the length grows by the number
    of underscores, and a text without underscores comes out as it went
    in. *)
Theorem escape_underscores_escapes (s : string) :
  (∀ prev, well_escaped prev (Link.escape_underscores s) = true) ∧
  String.length (Link.escape_underscores s)
  = String.length s + count_underscores s ∧
  (count_underscores s = 0 → Link.escape_underscores s = s).
Proof.
  split; [apply escape_well_escaped|]. split.
  - induction s as [|c s IH]; [done|].
    simpl. destruct (Ascii.eqb c "_"); simpl; rewrite IH; lia.
  - induction s as [|c s IH]; [done|].
    simpl. destruct (Ascii.eqb c "_"); simpl; [lia|].
    intros H. by rewrite IH.
Qed.

Lemma escape_underscores_escapes_witness :
  Link.escape_underscores "Lab 1" = "Lab 1".
Proof.
  apply (proj2 (proj2 (escape_underscores_escapes "Lab 1"))). reflexivity.
Defined.

(** ** More on folding notes into models *)

Section FoldMore.

Variable sub : model_class.

Lemma mapM_run_entry_slots (strs : list item) (entries : list doc) :
  mapM run_entry strs = Some entries → map (slot sub) strs = entries.
Proof.
  intros Hm%mapM_Some.
  induction Hm as [|i e strs entries He _ IH]; [done|].
  simpl. unfold slot at 1. by rewrite He, IH.
Qed.

Lemma Folded_unwrap (its : list item) (out : list doc) :
  Folded sub its out → concat (map unwrap_run out) = map (slot sub) its.
Proof.
  induction 1 as [|its ttl rest inner out Hinner _ _ IHout
                  |i rest out He Hnot _ IHout
                  |strs entries rest out Hne Hm Hhead _ IHout]; simpl.
  - done.
  - rewrite IHout. unfold slot at 2. simpl.
    by rewrite (Folded_built_unique sub its inner Hinner).
  - rewrite IHout. unfold slot at 2. rewrite He.
    rewrite convert_pass by done.
    by destruct i as [s|xs|its' ttl|latex|href dt|o].
  - by rewrite IHout, map_app, (mapM_run_entry_slots strs entries).
Qed.

Lemma Folded_length (its : list item) (out : list doc) :
  Folded sub its out →
  length out ≤ length its ∧ (its ≠ [] → out ≠ []).
Proof.
  induction 1 as [|its ttl rest inner out _ _ _ [IHout _]
                  |i rest out He Hnot _ [IHout _]
                  |strs entries rest out Hne Hm Hhead _ [IHout _]]; simpl.
  - split; [lia|done].
  - split; [lia|done].
  - split; [lia|done].
  - split; [|done]. rewrite length_app.
    destruct strs; [done|]. simpl. lia.
Qed.

Lemma mapM_run_entry_strs (strs : list item) :
  Forall (λ i, is_str i = true) strs →
  mapM run_entry strs = Some (map DItem strs).
Proof.
  intros Hall. apply mapM_Some.
  induction Hall as [|i strs Hi _ IH]; simpl; [constructor|].
  constructor; [|done]. by destruct i.
Qed.

End FoldMore.

Lemma to_models_made (top_model : option model_class)
    (sub_model : model_class) (n : LectureNotes.t) (d : doc) :
  LectureNotes.to_models top_model sub_model n = Made d →
  d = match top_model with
      | Some cls => DModel cls (ideal_built sub_model (LectureNotes.items n))
                      (Some (LectureNotes.title n))
      | None => DList (ideal_built sub_model (LectureNotes.items n))
      end.
Proof.
  rewrite to_models_outcome. unfold wrap_top, call_titled.
  destruct (callable_items sub_model (LectureNotes.items n)); [|done].
  destruct top_model as [cls|]; [|by intros [= <-]].
  destruct (accepts_title cls); [by intros [= <-]|done].
Qed.

(** X17.  Folding loses nothing and keeps the order: whenever [to_models]
    returns, opening every run it made gives back, item for item, what
    each item turned into (a string itself, a serializable object its
    [to_pyexlatex()], a nested [LectureNotes] its own model, anything else
    itself). *)
Theorem to_models_keeps_items (top_model : option model_class)
    (sub_model : model_class) (n : LectureNotes.t) (d : doc) :
  LectureNotes.to_models top_model sub_model n = Made d →
  ∃ final,
    d = match top_model with
        | Some cls => DModel cls final (Some (LectureNotes.title n))
        | None => DList final
        end ∧
    concat (map unwrap_run final) = map (slot sub_model) (LectureNotes.items n).
Proof.
  intros Hd%to_models_made.
  exists (ideal_built sub_model (LectureNotes.items n)). split; [done|].
  apply Folded_unwrap, Folded_built.
Qed.

Lemma to_models_keeps_items_witness :
  ∃ final,
    DModel PlSection
      [DModel PlUnorderedList [DItem (IStr "a"); DLatex (PlEquation "x")] None;
       DItem (ISeq [IStr "b"])]
      (Some "T")
    = DModel PlSection final (Some "T") ∧
    concat (map unwrap_run final)
    = map (slot PlUnorderedList) [IStr "a"; IEquation "x"; ISeq [IStr "b"]].
Proof.
  apply (to_models_keeps_items (Some PlSection) PlUnorderedList
           (LectureNotes.mk [IStr "a"; IEquation "x"; ISeq [IStr "b"]] "T")).
  reflexivity.
Defined.

(** X18.  Whenever [to_models] returns, the list it built has no more
    entries than the notes have items, and is empty only for notes without
    items. *)
Theorem to_models_length (top_model : option model_class)
    (sub_model : model_class) (n : LectureNotes.t) (d : doc) :
  LectureNotes.to_models top_model sub_model n = Made d →
  ∃ final,
    d = match top_model with
        | Some cls => DModel cls final (Some (LectureNotes.title n))
        | None => DList final
        end ∧
    length final ≤ length (LectureNotes.items n) ∧
    (final = [] ↔ LectureNotes.items n = []).
Proof.
  intros Hd%to_models_made.
  exists (ideal_built sub_model (LectureNotes.items n)). split; [done|].
  destruct (Folded_length sub_model _ _ (Folded_built sub_model (LectureNotes.items n)))
    as [Hlen Hne].
  split; [done|]. split.
  - intros Hnil. destruct (LectureNotes.items n); [done|].
    by destruct Hne.
  - by intros ->.
Qed.

Lemma to_models_length_witness :
  ∃ final,
    DList [DModel PlUnorderedList [DItem (IStr "a"); DItem (IStr "b")] None;
           DItem (ISeq [])]
    = DList final ∧
    length final ≤ 3 ∧
    (final = [] ↔ [IStr "a"; IStr "b"; ISeq []] = []).
Proof.
  apply (to_models_length None PlUnorderedList
           (LectureNotes.mk [IStr "a"; IStr "b"; ISeq []] "T")).
  reflexivity.
Defined.

Lemma callable_items_strs (sub : model_class) (its : list item) :
  its ≠ [] → Forall (λ i, is_str i = true) its →
  callable_items sub its = accepts_plain sub.
Proof.
  intros Hne Hall. unfold callable_items.
  replace (forallb (callable sub) its) with true.
  - replace (has_run (map DItem its)) with true; [done|].
    destruct Hall as [|i its Hi _]; [done|]. by destruct i.
  - symmetry. apply forallb_forall. intros i Hin%list_elem_of_In.
    rewrite Forall_forall in Hall. specialize (Hall i Hin). by destruct i.
Qed.

(** X19.  Notes that hold strings only, and at least one, fold into a
    single [sub_model] instance holding all of them in order: [to_models]
    is the call [sub_model(items)] followed by the wrapping of that one
    instance, and it raises [TypeError] only when one of these two calls
    is not taken.  With the default classes it returns one unordered list
    inside the section. *)
Theorem to_models_flat (top_model : option model_class)
    (sub_model : model_class) (n : LectureNotes.t) :
  LectureNotes.items n ≠ [] →
  Forall (λ i, is_str i = true) (LectureNotes.items n) →
  LectureNotes.to_models top_model sub_model n
  = (run ← call_plain sub_model (map DItem (LectureNotes.items n));
     match top_model with
     | Some cls => call_titled cls [run] (LectureNotes.title n)
     | None => Made (DList [run])
     end) ∧
  LectureNotes.to_models (Some PlSection) PlUnorderedList n
  = Made (DModel PlSection
            [DModel PlUnorderedList (map DItem (LectureNotes.items n)) None]
            (Some (LectureNotes.title n))).
Proof.
  intros Hne Hall.
  pose proof (built_run sub_model (LectureNotes.items n)
                (map DItem (LectureNotes.items n)) [] Hne
                (mapM_run_entry_strs _ Hall)) as Hrun.
  pose proof (built_run PlUnorderedList (LectureNotes.items n)
                (map DItem (LectureNotes.items n)) [] Hne
                (mapM_run_entry_strs _ Hall)) as Hdef.
  rewrite app_nil_r in Hrun, Hdef.
  rewrite !to_models_outcome, !callable_items_strs by done.
  rewrite Hrun, Hdef by done. unfold call_plain, wrap_top.
  split; [|done]. by destruct (accepts_plain sub_model).
Qed.

Lemma to_models_flat_witness :
  LectureNotes.to_models (Some PlSection) PlUnorderedList
    (LectureNotes.mk [IStr "a"; IStr "b"] "T")
  = Made (DModel PlSection
            [DModel PlUnorderedList [DItem (IStr "a"); DItem (IStr "b")] None]
            (Some "T")).
Proof.
  destruct (to_models_flat (Some PlSection) PlUnorderedList
              (LectureNotes.mk [IStr "a"; IStr "b"] "T")) as [_ Hdef].
  - done.
  - by repeat constructor.
  - exact Hdef.
Defined.

(** ** More on rendering items *)

(** X20.  Wrapping an item in a one-element list or tuple changes nothing
    in how it is rendered: the same line comes out, or the same
    [ValueError]. *)
Theorem bullet_content_singleton (i : item) :
  to_rst_bullet_content (ISeq [i]) = to_rst_bullet_content i.
Proof.
  cbn [to_rst_bullet_content]. rewrite mapM_result_cons.
  destruct (to_rst_bullet_content i) as [ls|e] eqn:Hi; [|done].
  destruct (bullet_content_single i ls Hi) as [line ->]. reflexivity.
Qed.

(** X21.  [to_pyexlatex_content] and the second loop of [to_models]
    treat an item alike: the loop sees a string exactly when
    [to_pyexlatex_content] gives a string, and it serializes the item to
    [o] exactly when [to_pyexlatex_content] gives [o].  The method has one
    entry per item, and hands a nested [LectureNotes] back as it is,
    where [to_models] converts it. *)
Theorem pyexlatex_content_agrees (n : LectureNotes.t) :
  length (LectureNotes.to_pyexlatex_content n) = length (LectureNotes.items n) ∧
  (∀ i o, str_kind_of (DItem i) = KSerializable o ↔
          to_pyexlatex_content i = PxLatex o) ∧
  (∀ i, str_kind_of (DItem i) = KStr ↔ ∃ s, to_pyexlatex_content i = PxStr s) ∧
  (∀ its ttl, to_pyexlatex_content (INotes its ttl) = PxItem (INotes its ttl)).
Proof.
  split; [apply length_map|]. split; [|split; [|done]].
  - intros i o.
    destruct i as [s|xs|its ttl|latex|href dt|ob]; simpl;
      try (split; intros; by simplify_eq).
    destruct (obj_to_pyexlatex ob); simpl; split; intros; by simplify_eq.
  - intros i.
    destruct i as [s'|xs|its ttl|latex|href dt|ob]; simpl;
      try (split; [done|by intros [? ?]]).
    + split; eauto.
    + destruct (obj_to_pyexlatex ob); simpl; (split; [done|by intros [? ?]]).
Qed.

Section JoinFacts.

Lemma join_head (sep : string) (b : list string) : ∀ c,
  b ≠ [] → join sep (join sep b :: c) = join sep (b ++ c).
Proof.
  induction b as [|x b IH]; intros c Hb; [done|].
  destruct b as [|y b]; [done|].
  rewrite (join_cons_ne sep x (y :: b)) by done.
  change ((x :: y :: b) ++ c) with (x :: ((y :: b) ++ c)).
  rewrite (join_cons_ne sep x ((y :: b) ++ c)) by done.
  rewrite <- (IH c) by done.
  destruct c as [|z c]; [done|].
  rewrite !(join_cons_ne sep _ (z :: c)) by done.
  by rewrite !string_app_assoc.
Qed.

Lemma join_nested (sep : string) (a b c : list string) :
  b ≠ [] → join sep (a ++ join sep b :: c) = join sep (a ++ b ++ c).
Proof.
  intros Hb. induction a as [|x a IH]; [exact (join_head sep b c Hb)|].
  change ((x :: a) ++ join sep b :: c) with (x :: (a ++ join sep b :: c)).
  change ((x :: a) ++ b ++ c) with (x :: (a ++ b ++ c)).
  rewrite (join_cons_ne sep x (a ++ join sep b :: c)) by (by destruct a).
  rewrite (join_cons_ne sep x (a ++ b ++ c)) by (by destruct a, b).
  by rewrite IH.
Qed.

Lemma mapM_result_app {A B} (f : A → result B) (l1 l2 : list A) :
  mapM f (l1 ++ l2) = (xs ← mapM f l1; ys ← mapM f l2; Ok (xs ++ ys)).
Proof.
  induction l1 as [|x l1 IH]; simpl app.
  - simpl. by destruct (mapM f l2).
  - rewrite !mapM_result_cons, IH.
    destruct (f x); [|done]. simpl.
    destruct (mapM f l1); [|done]. simpl.
    by destruct (mapM f l2).
Qed.

End JoinFacts.

(** X22.  A list or tuple nested in another, when it is not empty,
    renders as if its items stood in the outer one directly: the same
    single line, words joined by single spaces, or the same
    [ValueError]. *)
Theorem bullet_content_flatten (xs ys zs : list item) :
  ys ≠ [] →
  to_rst_bullet_content (ISeq (xs ++ ISeq ys :: zs))
  = to_rst_bullet_content (ISeq (xs ++ ys ++ zs)).
Proof.
  intros Hys. cbn [to_rst_bullet_content].
  rewrite !mapM_result_app, mapM_result_cons. cbn [to_rst_bullet_content].
  destruct (mapM to_rst_bullet_content xs) as [A|e]; [|done]. simpl.
  destruct (mapM to_rst_bullet_content ys) as [B|e] eqn:HB; [|done]. simpl.
  destruct (mapM to_rst_bullet_content zs) as [C|e]; [|done]. simpl.
  do 2 f_equal.
  rewrite !concat_app. simpl. apply join_nested.
  apply mapM_result_Ok in HB.
  destruct HB as [|y ls ys' B' Hy _]; [done|].
  by destruct (bullet_content_single y ls Hy) as [line ->].
Qed.

Lemma bullet_content_flatten_witness :
  to_rst_bullet_content (ISeq ([IStr "a"] ++ ISeq [IStr "b"; IStr "c"] :: [IStr "d"]))
  = to_rst_bullet_content (ISeq ([IStr "a"] ++ [IStr "b"; IStr "c"] ++ [IStr "d"])).
Proof. by apply bullet_content_flatten. Defined.
